(** * The failure classifier of the spotDL wrapper

    The two front-ends of the repository ([spotdl_downloader.py], the terminal
    menu, and [spotdl_gui/app.py], the desktop form) each carry a copy of one
    routine, [parse_failed_downloads], that scans the captured output lines of
    a [spotdl] run with two regular expressions and a four-line lookahead and
    returns the sorted set of failure descriptions.

    This file embeds that routine: Python strings as lists of code points,
    the two patterns as terms of a small regular-expression syntax run by a
    backtracking matcher that follows the rules of Python's [re], the
    [while]/[for] loops with explicit indexing, the [set] as a [gset], and
    [sorted] as a merge sort on the code-point order. *)

From Stdlib Require Import NArith List Ascii String Lia.
From stdpp Require Import base decidable option list sorting gmap strings.

Local Open Scope N_scope.
Local Open Scope nat_scope.

(** ** Python text *)

(** A Python [str] is a sequence of Unicode code points. *)
Abbreviation char := N (only parsing).
Abbreviation str := (list N) (only parsing).

Module PyStr.

(** A literal of the source, written as a Rocq string of ASCII characters. *)
Definition py (s : string) : str :=
  map N_of_ascii (list_ascii_of_string s).
Arguments py s%_string.

(** [str.isspace] on one character, which is also the class [\s] of [re] on
    text patterns: the white-space code points of the Unicode database. *)
Definition isspace (c : char) : bool :=
  ((9 <=? c) && (c <=? 13) || (28 <=? c) && (c <=? 32)
   || (c =? 133) || (c =? 160) || (c =? 5760)
   || (8192 <=? c) && (c <=? 8202)
   || (c =? 8232) || (c =? 8233) || (c =? 8239) || (c =? 8287)
   || (c =? 12288))%N.

Fixpoint lstrip (s : str) : str :=
  match s with
  | c :: s' => if isspace c then lstrip s' else s
  | [] => []
  end.

Definition rstrip (s : str) : str := rev (lstrip (rev s)).

(** [s.strip()] *)
Definition strip (s : str) : str := rstrip (lstrip s).

(** [s.startswith(p)], returning the rest of [s] on success. *)
Fixpoint strip_prefix (p s : str) : option str :=
  match p, s with
  | [], _ => Some s
  | a :: p', b :: s' => if (a =? b)%N then strip_prefix p' s' else None
  | _ :: _, [] => None
  end.

(** [needle in s] *)
Fixpoint contains (needle s : str) : bool :=
  match strip_prefix needle s with
  | Some _ => true
  | None => match s with
            | [] => false
            | _ :: s' => contains needle s'
            end
  end.

(** The truth value of a string: [if s:] holds of the non-empty ones. *)
Definition truthy (s : str) : bool :=
  match s with [] => false | _ :: _ => true end.

(** [a <= b] on strings: lexicographic on code points. *)
Fixpoint str_leb (a b : str) : bool :=
  match a, b with
  | [], _ => true
  | _ :: _, [] => false
  | x :: a', y :: b' =>
      if (x <? y)%N then true
      else if (x =? y)%N then str_leb a' b'
      else false
  end.

Definition str_le (a b : str) : Prop := str_leb a b = true.
Definition str_lt (a b : str) : Prop := str_le a b /\ a <> b.

#[export] Instance str_le_dec : RelDecision str_le :=
  fun a b => bool_eq_dec (str_leb a b) true.

(** [sorted(list(fs))] for a set of strings. *)
Definition sorted (fs : gset str) : list str :=
  merge_sort str_le (elements fs).

End PyStr.

(** ** Python's [re] on the constructs the two patterns use *)

Module Re.
Import PyStr.

(** The Unicode database's alphanumeric test ([str.isalnum] on one character)
    above ASCII, which [\w] consults. It belongs to the Python runtime, not to
    the repository, and is a parameter of the development. *)
Class UnicodeDB := { isalnum_above_ascii : char -> bool }.

(** [\w] on a text pattern: alphanumeric or the underscore. *)
Definition isword `{UnicodeDB} (c : char) : bool :=
  if (c <? 128)%N then
    ((48 <=? c) && (c <=? 57) || (65 <=? c) && (c <=? 90)
     || (97 <=? c) && (c <=? 122) || (c =? 95))%N
  else isalnum_above_ascii c.

(** [.] without DOTALL: any character but the newline. *)
Definition dot (c : char) : bool := negb (c =? 10)%N.

Inductive greed := Greedy | Lazy.

(** Pattern syntax. Repetition is over a set of characters, which is all
    the source patterns repeat ([.*?], [\s*], [.*], [[\w-]+]); [Group] is
    the capturing group number 1. *)
Inductive regex :=
| Lit (s : str)                      (* literal text *)
| Set1 (p : char -> bool)            (* one character of a class *)
| Rep (g : greed) (p : char -> bool) (* p* and p*? *)
| Eol                                (* $ *)
| Seq (r1 r2 : regex)
| Alt (r1 r2 : regex)                (* r1|r2, left first *)
| Opt (r : regex)                    (* (?:r)?, greedy *)
| Group (r : regex).                 (* (r) *)

(** [$] without MULTILINE: the end of the string, or just before a newline
    that ends the string. *)
Definition at_eol (s : str) : bool :=
  match s with
  | [] => true
  | [c] => (c =? 10)%N
  | _ => false
  end.

Section Matcher.
Context {A : Type}.

(** [p*]: as many characters as possible first, giving back one at a time. *)
Fixpoint star_greedy (p : char -> bool) (s : str) (k : str -> option A)
  : option A :=
  match s with
  | c :: s' =>
      if p c then
        match star_greedy p s' k with
        | Some x => Some x
        | None => k s
        end
      else k s
  | [] => k []
  end.

(** [p*?]: as few characters as possible first, taking one more at a time. *)
Fixpoint star_lazy (p : char -> bool) (s : str) (k : str -> option A)
  : option A :=
  match k s with
  | Some x => Some x
  | None =>
      match s with
      | c :: s' => if p c then star_lazy p s' k else None
      | [] => None
      end
  end.

(** The backtracking matcher. [s] is the text from the current position on,
    [g] the text group 1 holds so far, and [k] what remains to be matched:
    the first way of matching [r] here that [k] accepts is the result. *)
Fixpoint rmatch (r : regex) (s : str) (g : option str)
    (k : str -> option str -> option A) : option A :=
  match r with
  | Lit l =>
      match strip_prefix l s with
      | Some s' => k s' g
      | None => None
      end
  | Set1 p =>
      match s with
      | c :: s' => if p c then k s' g else None
      | [] => None
      end
  | Rep Greedy p => star_greedy p s (fun s' => k s' g)
  | Rep Lazy p => star_lazy p s (fun s' => k s' g)
  | Eol => if at_eol s then k s g else None
  | Seq r1 r2 => rmatch r1 s g (fun s' g' => rmatch r2 s' g' k)
  | Alt r1 r2 =>
      match rmatch r1 s g k with
      | Some x => Some x
      | None => rmatch r2 s g k
      end
  | Opt r1 =>
      match rmatch r1 s g k with
      | Some x => Some x
      | None => k s g
      end
  | Group r1 =>
      rmatch r1 s g
        (fun s' _ => k s' (Some (take (length s - length s') s)))
  end.

End Matcher.

(** A match object: [m.group(0)] and [m.group(1)] (the latter [None] when
    the group took no part in the match). *)
Record re_match := { group0 : str; group1 : option str }.

(** [pattern.match(s)]: a match that starts at the beginning of [s]. *)
Definition match_here (r : regex) (s : str) : option re_match :=
  rmatch r s None
    (fun s' g => Some {| group0 := take (length s - length s') s;
                         group1 := g |}).

(** [pattern.search(s)]: the match at the leftmost position that has one. *)
Fixpoint search (r : regex) (s : str) : option re_match :=
  match match_here r s with
  | Some m => Some m
  | None =>
      match s with
      | [] => None
      | _ :: s' => search r s'
      end
  end.

(** Two readings of a pattern: whether every match of it closes group 1, and
    whether every match of it takes at least one character. *)
Fixpoint sets_group (r : regex) : bool :=
  match r with
  | Group _ => true
  | Seq r1 r2 => sets_group r1 || sets_group r2
  | Alt r1 r2 => sets_group r1 && sets_group r2
  | _ => false
  end.

Fixpoint consumes (r : regex) : bool :=
  match r with
  | Lit l => truthy l
  | Set1 _ => true
  | Seq r1 r2 => consumes r1 || consumes r2
  | Alt r1 r2 => consumes r1 && consumes r2
  | Group r1 => consumes r1
  | _ => false
  end.

End Re.

(** ** What a call can come to *)

(** The exceptions the statements of the routine can raise: an index out of
    range, and a method call on [None]. *)
Inductive exn := IndexError | AttributeError.

(** A call returns a value, raises, or is still running when the fuel given
    to its [while] loop is spent. *)
Inductive outcome (A : Type) :=
| Return (a : A)
| Raise (e : exn)
| OutOfFuel.
Arguments Return {A} a.
Arguments Raise {A} e.
Arguments OutOfFuel {A}.

Definition bind {A B} (m : outcome A) (f : A -> outcome B) : outcome B :=
  match m with
  | Return a => f a
  | Raise e => Raise e
  | OutOfFuel => OutOfFuel
  end.

Declare Scope py_scope.
Delimit Scope py_scope with python.
Notation "x <- m ;; f" := (bind m (fun x => f))
  (at level 100, m at next level, right associativity) : py_scope.
Notation "r1 >> r2" := (Re.Seq r1 r2)
  (at level 60, right associativity) : py_scope.
Local Open Scope py_scope.

(** [l[i]] for a non-negative index. *)
Definition index {A} (l : list A) (i : nat) : outcome A :=
  match l !! i with
  | Some x => Return x
  | None => Raise IndexError
  end.

(** [m.group(1).strip()]: the call is on [None] when group 1 took no part. *)
Definition group1_strip (m : Re.re_match) : outcome str :=
  match Re.group1 m with
  | Some g => Return (PyStr.strip g)
  | None => Raise AttributeError
  end.

(** [range(a, b)] *)
Definition range (a b : nat) : list nat := seq a (b - a).

(** ** [spotdl_downloader.py] *)

Module Downloader.
Import PyStr Re.
Section Classifier.
Context `{UnicodeDB}.

(** The pattern of the explicit failures, piece by piece (the source writes
    the pieces without the blanks put between them here):
    [.*?]  [(?:Could not find a match for:|Failed to download|Track found but
    download failed)]  [:]  [\s*]  [( .*? )]  [(?: : .* )?]  [$] *)
Definition explicit_failure_pattern : regex :=
  Rep Lazy dot
  >> Alt (Lit (py "Could not find a match for:"))
       (Alt (Lit (py "Failed to download"))
            (Lit (py "Track found but download failed")))
  >> Lit (py ":")
  >> Rep Greedy isspace
  >> Group (Rep Lazy dot)
  >> Opt (Lit (py ":") >> Rep Greedy dot)
  >> Eol.

(** [[\w-]] *)
Definition word_or_hyphen (c : char) : bool := isword c || (c =? 45)%N.

(** The pattern of the watch links:
    [https?://(?:www\.)?(?:music\.)?youtube\.com/watch\?v=[\w-]+] *)
Definition youtube_url_pattern : regex :=
  Lit (py "http") >> Opt (Lit (py "s")) >> Lit (py "://")
  >> Opt (Lit (py "www.")) >> Opt (Lit (py "music."))
  >> Lit (py "youtube.com/watch?v=")
  >> Set1 word_or_hyphen >> Rep Greedy word_or_hyphen.

(** The two f-strings. *)
Definition url_record (yt_url : str) : str :=
  py "Download failed for YouTube URL: " ++ yt_url
  ++ py " (AudioProviderError)".

Definition generic_record (line : str) : str :=
  py "Download failed due to AudioProviderError (details in log: '"
  ++ line ++ py "')".

(** The [for j in range(...)] loop with its [break]: the value of [yt_url]
    after it. *)
Fixpoint for_j (output_lines : list str) (js : list nat)
  : outcome (option str) :=
  match js with
  | [] => Return None
  | j :: js' =>
      lj <- index output_lines j ;;
      match search youtube_url_pattern lj with
      | Some url_match => Return (Some (group0 url_match))
      | None => for_j output_lines js'
      end
  end.

(** One turn of the [while] loop, on the cursor [i] and the set. The test
    [if yt_url:] holds of a string that is not empty, and fails on [None]. *)
Definition loop_body (output_lines : list str) (st : nat * gset str)
  : outcome (nat * gset str) :=
  let '(i, failed_songs) := st in
  line <- index output_lines i ;;
  match search explicit_failure_pattern line with
  | Some explicit_match =>
      song_info <- group1_strip explicit_match ;;
      let failed_songs :=
        if truthy song_info then {[ song_info ]} ∪ failed_songs
        else failed_songs in
      Return (i + 1, failed_songs)
  | None =>
      if contains (py "AudioProviderError:") line then
        yt_url <- for_j output_lines
                    (range i (Nat.min (i + 4) (length output_lines))) ;;
        let failed_songs :=
          match yt_url with
          | Some u =>
              if truthy u then {[ url_record u ]} ∪ failed_songs
              else {[ generic_record line ]} ∪ failed_songs
          | None => {[ generic_record line ]} ∪ failed_songs
          end in
        Return (i + 1, failed_songs)
      else Return (i + 1, failed_songs)
  end.

(** [while i < len(output_lines): ...], each turn costing one unit of fuel. *)
Fixpoint while_loop (fuel : nat) (output_lines : list str)
    (st : nat * gset str) : outcome (nat * gset str) :=
  if (fst st <? length output_lines)%nat then
    match fuel with
    | O => OutOfFuel
    | S fuel' =>
        st' <- loop_body output_lines st ;;
        while_loop fuel' output_lines st'
    end
  else Return st.

Definition parse_failed_downloads_fuel (fuel : nat) (output_lines : list str)
  : outcome (list str) :=
  st <- while_loop fuel output_lines (0, ∅) ;;
  Return (sorted (snd st)).

(** The call, with one unit of fuel per line: the loop examines one line per
    turn, so this is enough, and more fuel changes nothing
    ([parse_failed_downloads_fuel_spec] below). *)
Definition parse_failed_downloads (output_lines : list str)
  : outcome (list str) :=
  parse_failed_downloads_fuel (length output_lines) output_lines.

End Classifier.
End Downloader.

(** ** [spotdl_gui/app.py] *)

(** The method [SpotdlGuiApp._parse_failed_downloads], which does not use
    [self]. *)
Module Gui.
Import PyStr Re.
Section Classifier.
Context `{UnicodeDB}.

Definition explicit_failure_pattern : regex :=
  Rep Lazy dot
  >> Alt (Lit (py "Could not find a match for:"))
       (Alt (Lit (py "Failed to download"))
            (Lit (py "Track found but download failed")))
  >> Lit (py ":")
  >> Rep Greedy isspace
  >> Group (Rep Lazy dot)
  >> Opt (Lit (py ":") >> Rep Greedy dot)
  >> Eol.

Definition word_or_hyphen (c : char) : bool := isword c || (c =? 45)%N.

Definition youtube_url_pattern : regex :=
  Lit (py "http") >> Opt (Lit (py "s")) >> Lit (py "://")
  >> Opt (Lit (py "www.")) >> Opt (Lit (py "music."))
  >> Lit (py "youtube.com/watch?v=")
  >> Set1 word_or_hyphen >> Rep Greedy word_or_hyphen.

Definition url_record (yt_url : str) : str :=
  py "Download failed for YouTube URL: " ++ yt_url
  ++ py " (AudioProviderError)".

Definition generic_record (line : str) : str :=
  py "Download failed due to AudioProviderError (details in log: '"
  ++ line ++ py "')".

Fixpoint for_j (output_lines : list str) (js : list nat)
  : outcome (option str) :=
  match js with
  | [] => Return None
  | j :: js' =>
      lj <- index output_lines j ;;
      match search youtube_url_pattern lj with
      | Some url_match => Return (Some (group0 url_match))
      | None => for_j output_lines js'
      end
  end.

Definition loop_body (output_lines : list str) (st : nat * gset str)
  : outcome (nat * gset str) :=
  let '(i, failed_songs) := st in
  line <- index output_lines i ;;
  match search explicit_failure_pattern line with
  | Some explicit_match =>
      song_info <- group1_strip explicit_match ;;
      let failed_songs :=
        if truthy song_info then {[ song_info ]} ∪ failed_songs
        else failed_songs in
      Return (i + 1, failed_songs)
  | None =>
      if contains (py "AudioProviderError:") line then
        yt_url <- for_j output_lines
                    (range i (Nat.min (i + 4) (length output_lines))) ;;
        let failed_songs :=
          match yt_url with
          | Some u =>
              if truthy u then {[ url_record u ]} ∪ failed_songs
              else {[ generic_record line ]} ∪ failed_songs
          | None => {[ generic_record line ]} ∪ failed_songs
          end in
        Return (i + 1, failed_songs)
      else Return (i + 1, failed_songs)
  end.

Fixpoint while_loop (fuel : nat) (output_lines : list str)
    (st : nat * gset str) : outcome (nat * gset str) :=
  if (fst st <? length output_lines)%nat then
    match fuel with
    | O => OutOfFuel
    | S fuel' =>
        st' <- loop_body output_lines st ;;
        while_loop fuel' output_lines st'
    end
  else Return st.

Definition _parse_failed_downloads_fuel (fuel : nat)
    (output_lines : list str) : outcome (list str) :=
  st <- while_loop fuel output_lines (0, ∅) ;;
  Return (sorted (snd st)).

Definition _parse_failed_downloads (output_lines : list str)
  : outcome (list str) :=
  _parse_failed_downloads_fuel (length output_lines) output_lines.

End Classifier.
End Gui.

(** A database for the worked examples, with nothing alphanumeric above
    ASCII. The examples are ASCII text, on which every database agrees. *)
Definition ascii_db : Re.UnicodeDB :=
  {| Re.isalnum_above_ascii := fun _ => false |}.

(** ** The loop read line by line

    The vocabulary of the proofs: what one turn of the loop of
    [parse_failed_downloads] adds to the set, and the set after some turns. *)

Module LineByLine.
Import PyStr Re Downloader.

(** The three marker phrases of the first pattern, as it spells them. *)
Definition markers : list str :=
  [py "Could not find a match for:"; py "Failed to download";
   py "Track found but download failed"].

Definition colon : char := 58%N.
Definition newline : char := 10%N.

(** The part of the first pattern after the marker phrase. *)
Definition after_marker : regex :=
  Lit (py ":") >> Rep Greedy isspace >> Group (Rep Lazy dot)
  >> Opt (Lit (py ":") >> Rep Greedy dot) >> Eol.

Section Records.
Context `{UnicodeDB}.

(** The marker of the second branch. *)
Definition audio_marker : str := py "AudioProviderError:".

(** The lines the [for] loop of cursor [i] reads: line [i] and up to three
    more. *)
Definition window (output_lines : list str) (i : nat) : list str :=
  take 4 (drop i output_lines).

(** The first watch link of a list of lines. *)
Fixpoint first_url (ls : list str) : option str :=
  match ls with
  | [] => None
  | l :: ls' =>
      match search youtube_url_pattern l with
      | Some m => Some (group0 m)
      | None => first_url ls'
      end
  end.

(** What the turn of the loop at line [i] adds to the set. *)
Definition line_record (output_lines : list str) (i : nat) (line : str)
  : option str :=
  match search explicit_failure_pattern line with
  | Some m =>
      match group1 m with
      | Some g => if truthy (strip g) then Some (strip g) else None
      | None => None
      end
  | None =>
      if contains audio_marker line then
        match first_url (window output_lines i) with
        | Some u => Some (url_record u)
        | None => Some (generic_record line)
        end
      else None
  end.

Definition add_record (o : option str) (fs : gset str) : gset str :=
  match o with
  | Some r => {[ r ]} ∪ fs
  | None => fs
  end.

(** The set after [n] turns from cursor [i]. *)
Fixpoint collect (output_lines : list str) (i n : nat) (fs : gset str)
  : gset str :=
  match n with
  | O => fs
  | S n' =>
      match output_lines !! i with
      | Some line =>
          collect output_lines (S i) n'
            (add_record (line_record output_lines i line) fs)
      | None => fs
      end
  end.

Definition records (output_lines : list str) : gset str :=
  collect output_lines 0 (length output_lines) ∅.

End Records.
End LineByLine.

(** ** What a pattern can match

    The texts a pattern matches at a position, said without the order in
    which the matcher tries them: [denotes r w rest] holds when [r] can match
    the text [w] with [rest] after it. *)

Module ReSemantics.
Import PyStr Re.

Fixpoint denotes (r : regex) (w rest : str) : Prop :=
  match r with
  | Lit l => w = l
  | Set1 p => exists c, w = [c] /\ p c = true
  | Rep _ p => Forall (fun c => p c = true) w
  | Eol => w = [] /\ at_eol rest = true
  | Seq r1 r2 =>
      exists w1 w2, w = w1 ++ w2 /\ denotes r1 w1 (w2 ++ rest)
                    /\ denotes r2 w2 rest
  | Alt r1 r2 => denotes r1 w rest \/ denotes r2 w rest
  | Opt r1 => denotes r1 w rest \/ w = []
  | Group r1 => denotes r1 w rest
  end.

(** The longest run of characters of a class a text begins with, and the
    text after it. *)
Fixpoint span (p : char -> bool) (s : str) : str * str :=
  match s with
  | c :: s' =>
      if p c then let '(run, rest) := span p s' in (c :: run, rest)
      else ([], s)
  | [] => ([], [])
  end.

End ReSemantics.

(** ** The three shapes of a record *)

Module Shapes.
Import PyStr Re Downloader LineByLine.

(** A title taken from [line]: a non-empty text without colon or newline and
    without white space at its ends, found in the line after a marker phrase
    of the first pattern, a colon and white space. *)
Definition no_space_at_ends (r : str) : Prop :=
  match r with
  | [] => True
  | c :: _ => isspace c = false
  end
  /\ match rev r with
     | [] => True
     | c :: _ => isspace c = false
     end.

Definition title_of (line r : str) : Prop :=
  r <> []
  /\ Forall (fun c => c <> colon /\ c <> newline) r
  /\ no_space_at_ends r
  /\ exists before M gap after,
       line = before ++ M ++ colon :: gap ++ r ++ after
       /\ In M markers
       /\ Forall (fun c => isspace c = true) gap.

(** Whether a marker phrase and a colon stand at the beginning of a text. *)
Definition marker_here (s : str) : bool :=
  existsb (fun M => match strip_prefix (M ++ [colon]) s with
                    | Some _ => true
                    | None => false
                    end) markers.

Section Links.
Context `{UnicodeDB}.

(** A text of the shape of a watch link: [http], an optional [s], [://],
    an optional [www.], an optional [music.], [youtube.com/watch?v=] and a
    non-empty run of letters, digits, underscores and hyphens. *)
Definition watch_link (u : str) : Prop :=
  exists scheme www music id,
    u = py "http" ++ scheme ++ py "://" ++ www ++ music
        ++ py "youtube.com/watch?v=" ++ id
    /\ (scheme = [] \/ scheme = py "s")
    /\ (www = [] \/ www = py "www.")
    /\ (music = [] \/ music = py "music.")
    /\ id <> []
    /\ Forall (fun c => word_or_hyphen c = true) id.

End Links.
End Shapes.

(** ** The list of URLs typed by the user *)

Module UrlInput.
Import PyStr Re.

(** [s.split()]: the runs of characters that are not white space. [word]
    holds the characters of the run being read, last first. *)
Fixpoint split_aux (s : str) (word : str) : list str :=
  match s with
  | [] => match word with [] => [] | _ :: _ => [rev word] end
  | c :: s' =>
      if isspace c then
        match word with
        | [] => split_aux s' []
        | _ :: _ => rev word :: split_aux s' []
        end
      else split_aux s' (c :: word)
  end.

Definition split (s : str) : list str := split_aux s [].

(** The same reading of a text for any class of separators: the runs of
    characters outside the class. *)
Fixpoint fields (p : char -> bool) (s : str) (word : str) : list str :=
  match s with
  | [] => match word with [] => [] | _ :: _ => [rev word] end
  | c :: s' =>
      if p c then
        match word with
        | [] => fields p s' []
        | _ :: _ => rev word :: fields p s' []
        end
      else fields p s' (c :: word)
  end.

(** [[url.strip() for url in pieces if url.strip()]] *)
Fixpoint strip_each_nonempty (pieces : list str) : list str :=
  match pieces with
  | [] => []
  | url :: rest =>
      if truthy (strip url) then strip url :: strip_each_nonempty rest
      else strip_each_nonempty rest
  end.

(** The statement that opens [download_songs], [save_metadata] and
    [get_direct_urls] of the terminal front-end:
    [urls = [url.strip() for url in urls_str.split() if url.strip()]]. *)
Definition urls_of_input (urls_str : str) : list str :=
  strip_each_nonempty (split urls_str).

(** [re.split(pattern, s)] for a pattern that matches no empty text: the
    texts between the matches, found from left to right. [skip] counts the
    characters of the current match still to pass, and [piece] holds the
    characters since the last match, last first. *)
Fixpoint re_split_aux (r : regex) (s : str) (skip : nat) (piece : str)
  {struct s} : list str :=
  match skip with
  | S k =>
      match s with
      | _ :: s' => re_split_aux r s' k piece
      | [] => [rev piece]
      end
  | O =>
      match option_map (fun m => length (group0 m)) (match_here r s), s with
      | Some (S k), _ :: s' => rev piece :: re_split_aux r s' k []
      | _, c :: s' => re_split_aux r s' 0 (c :: piece)
      | _, [] => [rev piece]
      end
  end.

Definition re_split (r : regex) (s : str) : list str :=
  re_split_aux r s 0 [].

(** The class [[ \n]] and the pattern [[ \n]+]. *)
Definition space_or_newline (c : char) : bool :=
  ((c =? 32) || (c =? 10))%N.

Definition url_separator : regex :=
  Set1 space_or_newline >> Rep Greedy space_or_newline.

(** [SpotDLGUI._get_urls_from_input] on the text of the URL field: the
    messages it logs, and the list it returns. *)
Definition _get_urls_from_input (urls_text : str) : list str * list str :=
  if negb (truthy urls_text) then
    ([py "Error: No Spotify URLs provided."], [])
  else
    ([], strip_each_nonempty (re_split url_separator urls_text)).

End UrlInput.

(** ** The prompts of the terminal front-end *)

From Stdlib Require DecimalString.

Module Console.
Import PyStr.

(** The console: the lines still to be read from standard input, and the
    texts written to standard output so far. *)
Record world := { stdin : list str; stdout : list str }.

(** What can end a prompt early: [input] at the end of standard input, and
    an index out of range. *)
Inductive error := EOFError | IndexError.

Inductive result (A : Type) :=
| Done (a : A) (w : world)
| Fails (e : error) (w : world)
| NoFuel.
Arguments Done {A} a w.
Arguments Fails {A} e w.
Arguments NoFuel {A}.

Definition and_then {A B} (m : result A) (f : A -> world -> result B)
  : result B :=
  match m with
  | Done a w => f a w
  | Fails e w => Fails e w
  | NoFuel => NoFuel
  end.

(** [print(s)] *)
Definition print (s : str) (w : world) : world :=
  {| stdin := stdin w; stdout := stdout w ++ [s ++ [10%N]] |}.

(** [input(prompt)] *)
Definition input (prompt : str) (w : world) : result str :=
  let out := stdout w ++ [prompt] in
  match stdin w with
  | line :: rest => Done line {| stdin := rest; stdout := out |}
  | [] => Fails EOFError {| stdin := []; stdout := out |}
  end.

(** [str(n)] for an integer: its decimal writing. *)
Definition str_of_int (n : Z) : str :=
  py (DecimalString.NilZero.string_of_int (Z.to_int n)).

(** [int(s)] for a text, [None] standing for [ValueError]. The texts it
    accepts are Python's affair (signs, blanks, underscores, digits of any
    script) and are a parameter here. *)
Class PyInt := { int_of_str : str -> option Z }.

(** [get_user_input(prompt, default)] *)
Definition get_user_input (prompt : str) (default : option str) (w : world)
  : result str :=
  match default with
  | Some d =>
      and_then (input (prompt ++ py " (default: " ++ d ++ py "): ") w)
        (fun line w' =>
           Done (if truthy (strip line) then strip line else d) w')
  | None =>
      and_then (input (prompt ++ py ": ") w)
        (fun line w' => Done (strip line) w')
  end.

(** [for i, option in enumerate(options): print(f"  {i+1}. {option}")],
    from index [i] on. *)
Fixpoint print_options (i : nat) (options : list str) (w : world) : world :=
  match options with
  | [] => w
  | option :: rest =>
      print_options (S i) rest
        (print (py "  " ++ str_of_int (Z.of_nat i + 1) ++ py ". " ++ option)
           w)
  end.

Section Loops.
Context `{PyInt}.

(** [get_user_choice(prompt, options)], each turn of its [while True] loop
    costing one unit of fuel. *)
Fixpoint get_user_choice (fuel : nat) (prompt : str) (options : list str)
    (w : world) : result str :=
  match fuel with
  | O => NoFuel
  | S fuel' =>
      let w := print ([10%N] ++ prompt) w in
      let w := print_options 0 options w in
      and_then (get_user_input (py "Enter your choice (number)") None w)
        (fun choice_str w =>
           match int_of_str choice_str with
           | Some n =>
               let choice_idx := (n - 1)%Z in
               if ((0 <=? choice_idx)
                   && (choice_idx <? Z.of_nat (length options)))%Z
               then
                 match options !! Z.to_nat choice_idx with
                 | Some option => Done option w
                 | None => Fails IndexError w
                 end
               else
                 get_user_choice fuel' prompt options
                   (print (py "Invalid choice. Please enter a number corresponding to an option from the list.") w)
           | None =>
               get_user_choice fuel' prompt options
                 (print (py "Invalid input. Please enter a whole number.") w)
           end)
  end.

(** [get_numeric_input(prompt, default, min_value)] *)
Fixpoint get_numeric_input (fuel : nat) (prompt : str) (default : option Z)
    (min_value : Z) (w : world) : result (option Z) :=
  match fuel with
  | O => NoFuel
  | S fuel' =>
      let default_str :=
        match default with
        | Some d => str_of_int d
        | None => []
        end in
      and_then (get_user_input prompt (Some default_str) w)
        (fun user_input w =>
           match truthy user_input, default with
           | false, Some d => Done (Some d) w
           | false, None => Done None w
           | true, _ =>
               match int_of_str user_input with
               | Some value =>
                   if (min_value <=? value)%Z then Done (Some value) w
                   else
                     get_numeric_input fuel' prompt default min_value
                       (print (py "Please enter a number greater than or equal to "
                               ++ str_of_int min_value ++ py ".") w)
               | None =>
                   get_numeric_input fuel' prompt default min_value
                     (print (py "Invalid input. Please enter a valid whole number.") w)
               end
           end)
  end.

End Loops.
End Console.

(** ** The actions of the desktop front-end that build a command *)

Module GuiActions.
Import PyStr UrlInput.

(** [shlex.split(s)], with the text of the [ValueError] when the quoting of
    [s] is wrong. The lexer is Python's and is a parameter here. *)
Class Shlex := { shlex_split : str -> str + list str }.

(** The part of the application the actions below read and write: three
    fields of the form, the messages logged to the console, the text of the
    status bar, and the commands handed to [_run_spotdl_command] with the
    names of their operations. *)
Record app := {
  urls_var : str;
  save_file_var : str;
  advanced_args_var : str;
  console : list str;
  status_bar : str;
  commands : list (list str * str)
}.

(** [self.log_message(message)] adds the message to the console. *)
Definition log_message (message : str) (a : app) : app :=
  {| urls_var := urls_var a; save_file_var := save_file_var a;
     advanced_args_var := advanced_args_var a;
     console := console a ++ [message];
     status_bar := status_bar a; commands := commands a |}.

(** [self._set_status(message)] *)
Definition _set_status (message : str) (a : app) : app :=
  {| urls_var := urls_var a; save_file_var := save_file_var a;
     advanced_args_var := advanced_args_var a;
     console := console a;
     status_bar := message; commands := commands a |}.

(** [self.save_file_var.set(value)] *)
Definition set_save_file_var (value : str) (a : app) : app :=
  {| urls_var := urls_var a; save_file_var := value;
     advanced_args_var := advanced_args_var a;
     console := console a;
     status_bar := status_bar a; commands := commands a |}.

(** The call [self._run_spotdl_command(command_parts, operation_name)]. The
    command runs on a worker thread, which is not modelled: the call is
    recorded. *)
Definition _run_spotdl_command (command_parts : list str)
    (operation_name : str) (a : app) : app :=
  {| urls_var := urls_var a; save_file_var := save_file_var a;
     advanced_args_var := advanced_args_var a;
     console := console a;
     status_bar := status_bar a;
     commands := commands a ++ [(command_parts, operation_name)] |}.

(** [s.endswith(suffix)] *)
Definition endswith (s suffix : str) : bool :=
  match strip_prefix (rev suffix) (rev s) with
  | Some _ => true
  | None => false
  end.

(** [self._get_urls_from_input()] as a method: its messages go to the
    console. *)
Definition get_urls (a : app) : list str * app :=
  let '(messages, urls) := _get_urls_from_input (urls_var a) in
  (urls, fold_left (fun a message => log_message message a) messages a).

Section Actions.
Context `{Shlex}.

(** [self._get_advanced_args()] *)
Definition _get_advanced_args (a : app) : list str * app :=
  let advanced_args_str := strip (advanced_args_var a) in
  if truthy advanced_args_str then
    match shlex_split advanced_args_str with
    | inr args => (args, a)
    | inl e =>
        ([], log_message
               (py "Warning: Could not parse advanced arguments '"
                ++ advanced_args_str ++ py "'. Check quoting: " ++ e) a)
    end
  else ([], a).

(** [self._save_metadata()] *)
Definition _save_metadata (a : app) : app :=
  let '(urls, a) := get_urls a in
  if negb (match urls with [] => false | _ :: _ => true end) then a
  else
    let save_file := strip (save_file_var a) in
    if negb (truthy save_file) then
      _set_status (py "Save metadata error: No save file specified.")
        (log_message
           (py "Error: 'Save/Sync State File' must be specified for saving metadata.")
           a)
    else
      let '(save_file, a) :=
        if negb (endswith save_file (py ".spotdl")) then
          let save_file := save_file ++ py ".spotdl" in
          (save_file,
           set_save_file_var save_file
             (log_message
                (py "Info: Appended '.spotdl' to save file name: "
                 ++ save_file) a))
        else (save_file, a) in
      let command := [py "spotdl"; py "save"] in
      let command := command ++ urls in
      let command := command ++ [py "--save-file"; save_file] in
      let '(advanced, a) := _get_advanced_args a in
      let command := command ++ advanced in
      _run_spotdl_command command (py "Save Metadata") a.

(** [self._get_direct_urls()] *)
Definition _get_direct_urls (a : app) : app :=
  let '(urls, a) := get_urls a in
  if negb (match urls with [] => false | _ :: _ => true end) then a
  else
    let command := [py "spotdl"; py "url"] in
    let command := command ++ urls in
    let '(advanced, a) := _get_advanced_args a in
    let command := command ++ advanced in
    _run_spotdl_command command (py "Get Direct URLs") a.

(** The arguments [_get_advanced_args] returns: those [shlex.split] gives
    for the trimmed field, and none when the field is blank or its quoting
    is wrong. *)
Definition advanced_of (a : app) : list str :=
  match strip (advanced_args_var a) with
  | [] => []
  | _ :: _ =>
      match shlex_split (strip (advanced_args_var a)) with
      | inr args => args
      | inl _ => []
      end
  end.

End Actions.
End GuiActions.

(** Readers for the worked examples: an [int] that reads one ASCII digit,
    and a lexer that splits at white space, as [int] and [shlex.split] do on
    such texts. *)
Definition one_digit_int : Console.PyInt :=
  {| Console.int_of_str := fun s =>
       match s with
       | [c] =>
           if ((48 <=? c) && (c <=? 57))%N then Some (Z.of_N c - 48)%Z
           else None
       | _ => None
       end |}.

Definition whitespace_lexer : GuiActions.Shlex :=
  {| GuiActions.shlex_split := fun s => inr (UrlInput.split s) |}.

(** A lexer for the worked examples that refuses a text with a double
    quote, as [shlex.split] refuses one whose quote is not closed, and
    splits the other texts at white space. *)
Definition unquoted_lexer : GuiActions.Shlex :=
  {| GuiActions.shlex_split := fun s =>
       if PyStr.contains [34%N] s then inl (PyStr.py "No closing quotation")
       else inr (UrlInput.split s) |}.

(** ** Facts about the text operations *)

Section PyStrFacts.
Import PyStr.

Lemma str_leb_refl (a : str) : str_leb a a = true.
Proof.
  induction a as [|x a IH]; simpl; [reflexivity|].
  rewrite N.ltb_irrefl, N.eqb_refl. exact IH.
Qed.

Lemma str_leb_total (a b : str) : str_leb a b = true \/ str_leb b a = true.
Proof.
  revert b. induction a as [|x a IH]; intros [|y b]; simpl; auto.
  destruct (N.ltb_spec x y), (N.ltb_spec y x); auto; try lia.
  assert (x = y) as -> by lia. rewrite N.eqb_refl. apply IH.
Qed.

Lemma str_leb_trans (a b c : str) :
  str_leb a b = true -> str_leb b c = true -> str_leb a c = true.
Proof.
  revert b c. induction a as [|x a IH]; intros [|y b] [|z c]; simpl;
    try congruence.
  destruct (N.ltb_spec x y), (N.ltb_spec y z), (N.ltb_spec x z);
    try reflexivity; try lia;
    destruct (N.eqb_spec x y), (N.eqb_spec y z), (N.eqb_spec x z);
    try congruence; try lia.
  apply IH.
Qed.

Lemma str_leb_antisym (a b : str) :
  str_leb a b = true -> str_leb b a = true -> a = b.
Proof.
  revert b. induction a as [|x a IH]; intros [|y b]; simpl;
    try congruence.
  destruct (N.ltb_spec x y), (N.ltb_spec y x); try lia;
    destruct (N.eqb_spec x y), (N.eqb_spec y x);
    try congruence; try lia.
  intros. f_equal; auto.
Qed.

#[local] Instance str_le_total : Total str_le.
Proof. intros a b. apply str_leb_total. Qed.

#[local] Instance str_le_trans : Transitive str_le.
Proof. intros a b c. apply str_leb_trans. Qed.

Lemma str_lt_trans (a b c : str) : str_lt a b -> str_lt b c -> str_lt a c.
Proof.
  intros [Hab Nab] [Hbc Nbc]. split.
  - exact (str_leb_trans _ _ _ Hab Hbc).
  - intros ->. apply Nab. apply str_leb_antisym; assumption.
Qed.

(** The sorted list of a set holds exactly the members of the set. *)
Lemma In_sorted (fs : gset str) (r : str) : In r (sorted fs) <-> r ∈ fs.
Proof.
  unfold sorted. rewrite <- list_elem_of_In.
  rewrite merge_sort_Permutation. apply elem_of_elements.
Qed.

Lemma NoDup_sorted (fs : gset str) : NoDup (sorted fs).
Proof.
  unfold sorted. rewrite merge_sort_Permutation. apply NoDup_elements.
Qed.

Lemma Sorted_sorted (fs : gset str) : StronglySorted str_le (sorted fs).
Proof. unfold sorted. apply StronglySorted_merge_sort; apply _. Qed.

(** Sorted and without repetition is strictly increasing. *)
Lemma strictly_sorted (l : list str) :
  StronglySorted str_le l -> NoDup l -> StronglySorted str_lt l.
Proof.
  induction 1 as [|a l Hs IH Ha]; intros Hnd; constructor.
  - apply IH. apply NoDup_cons_1_2 in Hnd. exact Hnd.
  - apply NoDup_cons_1_1 in Hnd.
    rewrite Forall_forall in Ha |- *. intros b Hb. split; [auto|].
    intros ->. apply Hnd. exact Hb.
Qed.

(** A strictly increasing list is determined by its members. *)
Lemma strictly_sorted_unique (l1 l2 : list str) :
  StronglySorted str_lt l1 -> StronglySorted str_lt l2 ->
  (forall r, In r l1 <-> In r l2) -> l1 = l2.
Proof.
  intros H1. revert l2.
  induction H1 as [|a l1 Hs1 IH Ha]; intros l2 H2 Hiff.
  - destruct l2 as [|b l2]; [reflexivity|].
    destruct (proj2 (Hiff b)). now left.
  - destruct H2 as [|b l2 Hs2 Hb].
    + destruct (proj1 (Hiff a)). now left.
    + rewrite List.Forall_forall in Ha, Hb.
      assert (a = b) as ->.
      { destruct (proj1 (Hiff a) (or_introl eq_refl)) as [E|Hin]; [auto|].
        destruct (proj2 (Hiff b) (or_introl eq_refl)) as [E|Hin']; [auto|].
        destruct (Hb _ Hin) as [L1 _], (Ha _ Hin') as [L2 _].
        apply str_leb_antisym; assumption. }
      f_equal. apply IH; [assumption|]. intros r. split; intros Hr.
      * destruct (proj1 (Hiff r) (or_intror Hr)) as [E|?]; [|assumption].
        subst r. destruct (Ha _ Hr) as [_ N]. congruence.
      * destruct (proj2 (Hiff r) (or_intror Hr)) as [E|?]; [|assumption].
        subst r. destruct (Hb _ Hr) as [_ N]. congruence.
Qed.

End PyStrFacts.

(** ** Facts about the matcher *)

Module ReFacts.
Import PyStr Re.

Lemma strip_prefix_Some (p s s' : str) :
  strip_prefix p s = Some s' <-> s = p ++ s'.
Proof.
  revert s. induction p as [|a p IH]; intros s; simpl.
  - split; congruence.
  - destruct s as [|b s]; [split; discriminate|].
    destruct (N.eqb_spec a b) as [->|Hne].
    + rewrite IH. split; congruence.
    + split; [discriminate|]. intros [= E _]. congruence.
Qed.

Lemma strip_prefix_app (p s : str) : strip_prefix p (p ++ s) = Some s.
Proof. now apply strip_prefix_Some. Qed.

Section Inversion.
Context {A : Type}.

Lemma star_greedy_inv p s (k : str -> option A) x :
  star_greedy p s k = Some x ->
  exists pre s', s = pre ++ s' /\ k s' = Some x.
Proof.
  induction s as [|c s IH]; simpl; intros Hm.
  - exists [], []. auto.
  - destruct (p c).
    + destruct (star_greedy p s k) as [y|] eqn:E.
      * destruct (IH Hm) as (pre & s' & -> & Hk).
        exists (c :: pre), s'. auto.
      * exists [], (c :: s). auto.
    + exists [], (c :: s). auto.
Qed.

Lemma star_lazy_inv p s (k : str -> option A) x :
  star_lazy p s k = Some x ->
  exists pre s', s = pre ++ s' /\ k s' = Some x.
Proof.
  induction s as [|c s IH]; simpl; intros Hm.
  - destruct (k []) eqn:E; [|discriminate]. exists [], [].
    split; [reflexivity|congruence].
  - destruct (k (c :: s)) eqn:E.
    + exists [], (c :: s). split; [reflexivity|]. congruence.
    + destruct (p c); [|discriminate].
      destruct (IH Hm) as (pre & s' & -> & Hk).
      exists (c :: pre), s'. auto.
Qed.

(** A successful match hands its continuation a suffix of the text; group 1
    is set there when the pattern closes it or it was set before, and the
    suffix is proper when the pattern takes a character. *)
Lemma rmatch_inv (r : regex) :
  forall s g (k : str -> option str -> option A) x,
    rmatch r s g k = Some x ->
    exists pre s' g',
      s = pre ++ s' /\ k s' g' = Some x
      /\ (sets_group r = true \/ is_Some g -> is_Some g')
      /\ (consumes r = true -> pre <> []).
Proof.
  induction r as [l|p|gr p| |r1 IH1 r2 IH2|r1 IH1 r2 IH2|r1 IH1|r1 IH1];
    intros s g k x Hm; simpl in Hm.
  - destruct (strip_prefix l s) as [s'|] eqn:E; [|discriminate].
    apply strip_prefix_Some in E. exists l, s', g. split_and!.
    + exact E.
    + exact Hm.
    + intros [?|?]; [discriminate|assumption].
    + simpl. destruct l; [discriminate|congruence].
  - destruct s as [|c s]; [discriminate|].
    destruct (p c); [|discriminate]. exists [c], s, g. split_and!.
    + reflexivity.
    + exact Hm.
    + intros [?|?]; [discriminate|assumption].
    + discriminate.
  - assert (exists pre s', s = pre ++ s' /\ k s' g = Some x)
      as (pre & s' & -> & Hk).
    { destruct gr; [eapply star_greedy_inv|eapply star_lazy_inv];
        exact Hm. }
    exists pre, s', g. split_and!.
    + reflexivity.
    + exact Hk.
    + intros [?|?]; [discriminate|assumption].
    + discriminate.
  - destruct (at_eol s); [|discriminate]. exists [], s, g. split_and!.
    + reflexivity.
    + exact Hm.
    + intros [?|?]; [discriminate|assumption].
    + discriminate.
  - apply IH1 in Hm as (pre1 & s1 & g1 & -> & Hm & Hg1 & Hc1).
    apply IH2 in Hm as (pre2 & s2 & g2 & -> & Hk & Hg2 & Hc2).
    exists (pre1 ++ pre2), s2, g2. split_and!.
    + now rewrite <- app_assoc.
    + exact Hk.
    + simpl. intros [Hs|Hg].
      * apply orb_true_iff in Hs as [Hs|Hs]; auto.
      * auto.
    + simpl. intros Hc. apply orb_true_iff in Hc as [Hc|Hc].
      * specialize (Hc1 Hc). destruct pre1; [congruence|discriminate].
      * specialize (Hc2 Hc).
        destruct pre1; [exact Hc2|discriminate].
  - destruct (rmatch r1 s g k) as [y|] eqn:E.
    + injection Hm as ->.
      apply IH1 in E as (pre & s' & g' & -> & Hk & Hg & Hc).
      exists pre, s', g'. split_and!.
      * reflexivity.
      * exact Hk.
      * simpl. intros [Hs|?]; auto.
        apply andb_true_iff in Hs as [Hs _]. auto.
      * simpl. intros Hs. apply andb_true_iff in Hs as [Hs _]. auto.
    + apply IH2 in Hm as (pre & s' & g' & -> & Hk & Hg & Hc).
      exists pre, s', g'. split_and!.
      * reflexivity.
      * exact Hk.
      * simpl. intros [Hs|?]; auto.
        apply andb_true_iff in Hs as [_ Hs]. auto.
      * simpl. intros Hs. apply andb_true_iff in Hs as [_ Hs]. auto.
  - destruct (rmatch r1 s g k) as [y|] eqn:E.
    + injection Hm as ->.
      apply IH1 in E as (pre & s' & g' & -> & Hk & Hg & Hc).
      exists pre, s', g'. split_and!.
      * reflexivity.
      * exact Hk.
      * intros [?|?]; [discriminate|auto].
      * discriminate.
    + exists [], s, g. split_and!.
      * reflexivity.
      * exact Hm.
      * intros [?|?]; [discriminate|auto].
      * discriminate.
  - apply IH1 in Hm as (pre & s' & g' & -> & Hk & Hg & Hc).
    eexists pre, s', _. split_and!.
    + reflexivity.
    + exact Hk.
    + intros _. eexists. reflexivity.
    + exact Hc.
Qed.

End Inversion.

Lemma take_app_diff {B} (pre s' : list B) :
  take (length (pre ++ s') - length s') (pre ++ s') = pre.
Proof.
  rewrite length_app.
  replace (length pre + length s' - length s') with (length pre) by lia.
  apply take_app_length.
Qed.

(** What a match at a position is: the text splits into the match and a
    rest. *)
Lemma match_here_inv (r : regex) (s : str) (m : re_match) :
  match_here r s = Some m ->
  exists s', s = group0 m ++ s'
    /\ (sets_group r = true -> is_Some (group1 m))
    /\ (consumes r = true -> group0 m <> []).
Proof.
  unfold match_here. intros Hm.
  apply rmatch_inv in Hm as (pre & s' & g' & -> & Hk & Hg & Hc).
  injection Hk as <-. rewrite take_app_diff. simpl.
  exists s'. split_and!; auto.
Qed.

(** A search that succeeds is a match at some position of the line. *)
Lemma search_inv (r : regex) (s : str) (m : re_match) :
  search r s = Some m ->
  exists skipped t, s = skipped ++ t /\ match_here r t = Some m.
Proof.
  induction s as [|c s IH]; simpl; intros Hs.
  - destruct (match_here r []) eqn:E; [|discriminate].
    exists [], []. split; [reflexivity|congruence].
  - destruct (match_here r (c :: s)) eqn:E.
    + exists [], (c :: s). split; [reflexivity|congruence].
    + destruct (IH Hs) as (sk & t & -> & Hm).
      exists (c :: sk), t. auto.
Qed.

End ReFacts.

(** ** The loop, line by line *)

Module ClassifierFacts.
Import PyStr Re ReFacts Downloader LineByLine.

Section Facts.
Context `{UnicodeDB}.

(** Every match of the first pattern sets group 1, and every watch link is
    a non-empty text. *)
Lemma explicit_group1 (line : str) (m : re_match) :
  search explicit_failure_pattern line = Some m -> is_Some (group1 m).
Proof.
  intros Hs. apply search_inv in Hs as (sk & t & _ & Hm).
  apply match_here_inv in Hm as (_ & _ & Hg & _). apply Hg. reflexivity.
Qed.

Lemma youtube_url_truthy (line : str) (m : re_match) :
  search youtube_url_pattern line = Some m -> truthy (group0 m) = true.
Proof.
  intros Hs. apply search_inv in Hs as (sk & t & _ & Hm).
  apply match_here_inv in Hm as (_ & _ & _ & Hc).
  specialize (Hc eq_refl). destruct (group0 m); [congruence|reflexivity].
Qed.

Lemma first_url_truthy (ls : list str) (u : str) :
  first_url ls = Some u -> truthy u = true.
Proof.
  induction ls as [|l ls IH]; simpl; [discriminate|].
  destruct (search youtube_url_pattern l) as [m|] eqn:E; [|exact IH].
  intros [= <-]. eapply youtube_url_truthy. exact E.
Qed.

(** The [for] loop stays within the list and finds the first watch link of
    the lines it ranges over. *)
Lemma for_j_seq (output_lines : list str) (n i : nat) :
  i + n <= length output_lines ->
  for_j output_lines (seq i n)
  = Return (first_url (take n (drop i output_lines))).
Proof.
  revert i. induction n as [|n IH]; intros i Hi; simpl.
  - reflexivity.
  - destruct (lookup_lt_is_Some_2 output_lines i) as [lj Hlj]; [lia|].
    unfold index. rewrite Hlj. simpl.
    rewrite (drop_S _ _ _ Hlj). simpl.
    destruct (search youtube_url_pattern lj); [reflexivity|].
    apply IH. lia.
Qed.

Lemma for_j_window (output_lines : list str) (i : nat) :
  i <= length output_lines ->
  for_j output_lines (range i (Nat.min (i + 4) (length output_lines)))
  = Return (first_url (window output_lines i)).
Proof.
  intros Hi. unfold range, window. rewrite for_j_seq by lia. do 2 f_equal.
  destruct (Nat.le_gt_cases (i + 4) (length output_lines)).
  - f_equal. lia.
  - rewrite !take_ge; [reflexivity| |]; rewrite length_drop; lia.
Qed.

(** One turn of the loop returns, moves the cursor by one, and adds the
    record of its line. *)
Lemma loop_body_spec (output_lines : list str) (i : nat) (fs : gset str)
    (line : str) :
  output_lines !! i = Some line ->
  loop_body output_lines (i, fs)
  = Return (i + 1, add_record (line_record output_lines i line) fs).
Proof.
  intros Hl. unfold loop_body, line_record, index. rewrite Hl. simpl.
  destruct (search explicit_failure_pattern line) as [m|] eqn:E.
  - destruct (explicit_group1 _ _ E) as [g Hg].
    unfold group1_strip. rewrite Hg. simpl.
    destruct (truthy (strip g)); reflexivity.
  - fold audio_marker. destruct (contains audio_marker line); [|reflexivity].
    rewrite for_j_window by (apply lookup_lt_Some in Hl; lia). simpl.
    destruct (first_url (window output_lines i)) as [u|] eqn:Eu;
      [|reflexivity].
    rewrite (first_url_truthy _ _ Eu). reflexivity.
Qed.

(** The [while] loop returns within one unit of fuel per remaining line. *)
Lemma while_loop_spec (output_lines : list str) (n : nat) :
  forall fuel i fs,
    i + n = length output_lines -> n <= fuel ->
    while_loop fuel output_lines (i, fs)
    = Return (length output_lines, collect output_lines i n fs).
Proof.
  induction n as [|n IH]; intros fuel i fs Hi Hf.
  - destruct fuel; cbn [while_loop fst];
      (destruct (Nat.ltb_spec i (length output_lines)); [lia|]);
      do 2 f_equal; lia.
  - destruct fuel as [|fuel]; [lia|]. cbn [while_loop fst collect].
    destruct (Nat.ltb_spec i (length output_lines)); [|lia].
    destruct (lookup_lt_is_Some_2 output_lines i) as [line Hl]; [lia|].
    rewrite (loop_body_spec _ _ _ _ Hl), Hl. cbn [bind].
    replace (i + 1) with (S i) by lia. apply IH; lia.
Qed.

Lemma parse_failed_downloads_fuel_spec (output_lines : list str) (fuel : nat) :
  length output_lines <= fuel ->
  parse_failed_downloads_fuel fuel output_lines
  = Return (sorted (records output_lines)).
Proof.
  intros Hf. unfold parse_failed_downloads_fuel.
  rewrite (while_loop_spec output_lines (length output_lines)) by lia.
  reflexivity.
Qed.

Lemma parse_failed_downloads_spec (output_lines : list str) :
  parse_failed_downloads output_lines
  = Return (sorted (records output_lines)).
Proof. apply parse_failed_downloads_fuel_spec. lia. Qed.

(** The members of the set after the loop. *)
Lemma elem_of_collect (output_lines : list str) (r : str) (n : nat) :
  forall i fs,
    r ∈ collect output_lines i n fs <->
    r ∈ fs \/ exists j line,
                i <= j < i + n /\ output_lines !! j = Some line
                /\ line_record output_lines j line = Some r.
Proof.
  induction n as [|n IH]; intros i fs; simpl.
  - split; [auto|]. intros [?|(j & ? & ? & _)]; [assumption|lia].
  - destruct (output_lines !! i) as [line|] eqn:Hl.
    + rewrite IH. split.
      * intros [Hr|(j & l & Hj & Hjl & Hrec)].
        -- destruct (line_record output_lines i line) as [r'|] eqn:E;
             simpl in Hr; [|auto].
           apply elem_of_union in Hr as [Hr|Hr]; [|auto].
           apply elem_of_singleton in Hr as ->.
           right. exists i, line. split_and!; auto; lia.
        -- right. exists j, l. split_and!; auto; lia.
      * intros [Hr|(j & l & Hj & Hjl & Hrec)].
        -- left. destruct (line_record output_lines i line); simpl;
             [apply elem_of_union; auto|auto].
        -- destruct (decide (j = i)) as [->|Hne].
           ++ left. rewrite Hl in Hjl. injection Hjl as <-.
              rewrite Hrec. simpl. apply elem_of_union. left.
              now apply elem_of_singleton.
           ++ right. exists j, l. split_and!; auto; lia.
    + split; [auto|]. intros [?|(j & l & Hj & Hjl & _)]; [assumption|].
      apply lookup_ge_None in Hl. apply lookup_lt_Some in Hjl. lia.
Qed.

Lemma elem_of_records (output_lines : list str) (r : str) :
  r ∈ records output_lines <->
  exists j line, output_lines !! j = Some line
                 /\ line_record output_lines j line = Some r.
Proof.
  unfold records. rewrite elem_of_collect. split.
  - intros [Hr|(j & l & _ & ? & ?)]; [|eauto].
    now apply not_elem_of_empty in Hr.
  - intros (j & l & Hl & Hr). right. exists j, l. split_and!; auto.
    + lia.
    + apply lookup_lt_Some in Hl. lia.
Qed.

(** The call returns, and its result lists the records of the lines. *)
Lemma parse_failed_downloads_In (output_lines : list str) :
  exists result,
    parse_failed_downloads output_lines = Return result
    /\ forall r, In r result <->
         exists j line, output_lines !! j = Some line
                        /\ line_record output_lines j line = Some r.
Proof.
  exists (sorted (records output_lines)). split.
  - apply parse_failed_downloads_spec.
  - intros r. rewrite In_sorted. apply elem_of_records.
Qed.

End Facts.
End ClassifierFacts.

(** ** What the first pattern captures *)

Module ExplicitFacts.
Import PyStr Re ReFacts Downloader LineByLine.

Lemma strip_prefix_app_split (a b s : str) :
  strip_prefix (a ++ b) s
  = match strip_prefix a s with
    | Some s' => strip_prefix b s'
    | None => None
    end.
Proof.
  revert s. induction a as [|x a IH]; intros s; simpl; [reflexivity|].
  destruct s as [|y s]; [reflexivity|]. destruct (x =? y)%N; auto.
Qed.

Section Stars.
Context {A : Type}.

Lemma star_lazy_eq p s (k : str -> option A) :
  star_lazy p s k
  = match k s with
    | Some x => Some x
    | None =>
        match s with
        | c :: s' => if p c then star_lazy p s' k else None
        | [] => None
        end
    end.
Proof. destruct s; reflexivity. Qed.

(** The lazy star stops at the first position its continuation accepts. *)
Lemma star_lazy_first p pre t (k : str -> option A) x :
  Forall (fun c => p c = true) pre ->
  (forall j, j < length pre -> k (drop j (pre ++ t)) = None) ->
  k t = Some x ->
  star_lazy p (pre ++ t) k = Some x.
Proof.
  induction pre as [|c pre IH]; intros Hp Hnone Hk.
  - simpl. rewrite star_lazy_eq, Hk. reflexivity.
  - pose proof (Hnone 0 ltac:(simpl; lia)) as H0. simpl in H0.
    rewrite star_lazy_eq. simpl. rewrite H0.
    apply Forall_cons in Hp as [-> Hp]. apply IH; auto.
    intros j Hj. apply (Hnone (S j)). simpl. lia.
Qed.

(** The greedy star first tries the longest run of characters of its
    class. *)
Lemma star_greedy_max p ws rest (k : str -> option A) x :
  Forall (fun c => p c = true) ws ->
  match rest with [] => True | c :: _ => p c = false end ->
  k rest = Some x ->
  star_greedy p (ws ++ rest) k = Some x.
Proof.
  intros Hws Hrest Hk. induction Hws as [|c ws Hc _ IH]; simpl.
  - destruct rest as [|c rest]; [exact Hk|]. simpl. now rewrite Hrest.
  - simpl in Hc. now rewrite Hc, IH.
Qed.

End Stars.

(** The white space [lstrip] removes, and what it leaves. *)
Lemma lstrip_split (s : str) :
  exists ws, s = ws ++ lstrip s
    /\ Forall (fun c => isspace c = true) ws
    /\ match lstrip s with [] => True | c :: _ => isspace c = false end.
Proof.
  induction s as [|c s (ws & E & Hws & Hh)]; simpl.
  - exists []. auto.
  - destruct (isspace c) eqn:Ec.
    + exists (c :: ws). split_and!; [simpl; congruence|auto|exact Hh].
    + exists []. auto.
Qed.

Lemma strip_colon_cons (c : char) (s : str) :
  strip_prefix (py ":") (c :: s) = if (colon =? c)%N then Some s else None.
Proof. reflexivity. Qed.

Lemma at_eol_cons (c : char) (s : str) :
  c <> newline -> at_eol (c :: s) = false.
Proof.
  intros Hc. destruct s; [|reflexivity]. simpl.
  now apply N.eqb_neq.
Qed.

Lemma dot_true (c : char) : c <> newline -> dot c = true.
Proof. intros Hc. unfold dot. now apply negb_true_iff, N.eqb_neq. Qed.

Section AfterMarker.
Context {A : Type}.

(** On [: mid tail], where [mid] has neither colon nor newline and [tail] is
    empty or a colon and the rest of the line, the part after the marker
    matches to the end and captures [mid] less its leading white space. *)
Lemma after_marker_match (mid tail : str) g
    (k : str -> option str -> option A) x :
  Forall (fun c => c <> colon /\ c <> newline) mid ->
  (tail = [] \/ exists rest, tail = colon :: rest
                             /\ Forall (fun c => c <> newline) rest) ->
  k [] (Some (lstrip mid)) = Some x ->
  rmatch after_marker (colon :: mid ++ tail) g k = Some x.
Proof.
  intros Hmid Htail Hk.
  destruct (lstrip_split mid) as (ws & E & Hws & Hhead).
  set (body := lstrip mid) in *.
  assert (Hbody : Forall (fun c => c <> colon /\ c <> newline) body).
  { rewrite E in Hmid. apply Forall_app in Hmid as [_ ?]. assumption. }
  rewrite E, <- app_assoc.
  unfold after_marker. cbn [rmatch].
  rewrite strip_colon_cons. change (colon =? colon)%N with true. cbn iota.
  apply star_greedy_max; [exact Hws| |].
  { destruct body as [|c body]; [|exact Hhead].
    destruct Htail as [->|(rest & -> & _)]; simpl; auto. }
  apply star_lazy_first.
  - eapply Forall_impl; [exact Hbody|]. intros c [_ Hc]. now apply dot_true.
  - intros j Hj.
    destruct (lookup_lt_is_Some_2 body j Hj) as [c Hc].
    rewrite drop_app_le by lia. rewrite (drop_S _ _ _ Hc).
    rewrite Forall_lookup in Hbody. destruct (Hbody _ _ Hc) as [Hc1 Hc2].
    cbn [app]. rewrite strip_colon_cons.
    destruct (N.eqb_spec colon c) as [<-|_]; [congruence|].
    now rewrite at_eol_cons.
  - assert (Hcap : take (length (body ++ tail) - length tail) (body ++ tail)
                   = body) by apply take_app_diff.
    destruct Htail as [->|(rest & -> & Hrest)].
    + simpl strip_prefix. cbn iota. rewrite Hcap. exact Hk.
    + rewrite strip_colon_cons. change (colon =? colon)%N with true.
      cbn iota.
      rewrite <- (app_nil_r rest) at 1.
      rewrite (star_greedy_max dot rest [] _ x); [reflexivity| |exact I|].
      * eapply Forall_impl; [exact Hrest|]. intros c Hc. now apply dot_true.
      * simpl at_eol. cbn iota. rewrite Hcap. exact Hk.
Qed.

(** Without a colon next, the part after the marker does not match. *)
Lemma after_marker_no_colon (s : str) g
    (k : str -> option str -> option A) :
  strip_prefix [colon] s = None -> rmatch after_marker s g k = None.
Proof.
  intros Hs. unfold after_marker. cbn [rmatch].
  change (py ":") with [colon]. now rewrite Hs.
Qed.

End AfterMarker.

Lemma search_eq (r : regex) (s : str) :
  search r s
  = match match_here r s with
    | Some m => Some m
    | None => match s with [] => None | _ :: s' => search r s' end
    end.
Proof. destruct s; reflexivity. Qed.

(** A line [pre M : mid tail] whose first marker phrase followed by a colon
    is [M], with no newline before the end: the search succeeds and group 1
    is [mid] less its leading white space. *)
Lemma explicit_search (pre M mid tail : str) :
  In M markers ->
  Forall (fun c => c <> newline) pre ->
  (forall j M', j < length pre -> In M' markers ->
     strip_prefix (M' ++ [colon])
       (drop j (pre ++ M ++ colon :: mid ++ tail)) = None) ->
  Forall (fun c => c <> colon /\ c <> newline) mid ->
  (tail = [] \/ exists rest, tail = colon :: rest
                             /\ Forall (fun c => c <> newline) rest) ->
  exists m,
    search explicit_failure_pattern (pre ++ M ++ colon :: mid ++ tail)
    = Some m
    /\ group1 m = Some (lstrip mid).
Proof.
  intros HM Hpre Hfirst Hmid Htail.
  set (line := pre ++ M ++ colon :: mid ++ tail) in *.
  exists {| group0 := take (length line - 0) line;
            group1 := Some (lstrip mid) |}.
  split; [|reflexivity].
  rewrite search_eq.
  enough (match_here explicit_failure_pattern line = Some _) as ->
    by reflexivity.
  unfold match_here.
  change explicit_failure_pattern
    with (Rep Lazy dot
          >> Alt (Lit (py "Could not find a match for:"))
               (Alt (Lit (py "Failed to download"))
                    (Lit (py "Track found but download failed")))
          >> after_marker).
  cbn [rmatch]. subst line. apply star_lazy_first.
  - eapply Forall_impl; [exact Hpre|]. intros c Hc. now apply dot_true.
  - intros j Hj.
    set (d := drop j _) in *.
    assert (Hno : forall M', In M' markers ->
              match strip_prefix M' d with
              | Some s' => strip_prefix [colon] s'
              | None => None
              end = None).
    { intros M' HM'. rewrite <- strip_prefix_app_split. now apply Hfirst. }
    pose proof (Hno _ (or_introl eq_refl)) as H1.
    pose proof (Hno _ (or_intror (or_introl eq_refl))) as H2.
    pose proof (Hno _ (or_intror (or_intror (or_introl eq_refl)))) as H3.
    destruct (strip_prefix (py "Could not find a match for:") d);
      [rewrite after_marker_no_colon by exact H1|];
      (destruct (strip_prefix (py "Failed to download") d);
        [rewrite after_marker_no_colon by exact H2|]);
      (destruct (strip_prefix (py "Track found but download failed") d);
        [rewrite after_marker_no_colon by exact H3|]);
      reflexivity.
  - set (k := fun (s' : str) (g : option str) => Some _).
    assert (Hk : rmatch after_marker (colon :: mid ++ tail) None k
                 = k [] (Some (lstrip mid))).
    { now apply after_marker_match. }
    destruct HM as [<-|[<-|[<-|[]]]].
    + rewrite strip_prefix_app, Hk. reflexivity.
    + change (strip_prefix (py "Could not find a match for:")
                (py "Failed to download" ++ colon :: mid ++ tail))
        with (@None str).
      rewrite strip_prefix_app, Hk. reflexivity.
    + change (strip_prefix (py "Could not find a match for:")
                (py "Track found but download failed"
                 ++ colon :: mid ++ tail))
        with (@None str).
      change (strip_prefix (py "Failed to download")
                (py "Track found but download failed"
                 ++ colon :: mid ++ tail))
        with (@None str).
      rewrite strip_prefix_app, Hk. reflexivity.
Qed.

End ExplicitFacts.

(** ** The lookahead window and single lines *)

Module WindowFacts.
Import PyStr Re ReFacts Downloader LineByLine ClassifierFacts ExplicitFacts.

Section Facts.
Context `{UnicodeDB}.

Lemma first_url_app (a b : list str) :
  first_url (a ++ b)
  = match first_url a with
    | Some u => Some u
    | None => first_url b
    end.
Proof.
  induction a as [|l a IH]; simpl; [reflexivity|].
  destruct (search youtube_url_pattern l); [reflexivity|exact IH].
Qed.

Lemma first_url_None (ls : list str) :
  first_url ls = None <->
  forall k l, ls !! k = Some l -> search youtube_url_pattern l = None.
Proof.
  induction ls as [|l0 ls IH]; simpl.
  - split; [|reflexivity]. intros _ k l Hk. destruct k; discriminate.
  - destruct (search youtube_url_pattern l0) eqn:E.
    + split; [discriminate|]. intros Hall.
      specialize (Hall 0 l0 eq_refl). congruence.
    + rewrite IH. split; intros Hall k l Hk.
      * destruct k as [|k]; [injection Hk as <-; exact E|].
        exact (Hall k l Hk).
      * exact (Hall (S k) l Hk).
Qed.

(** The first line of the list with a watch link gives the link. *)
Lemma first_url_at (ls : list str) :
  forall k l m,
    ls !! k = Some l -> search youtube_url_pattern l = Some m ->
    (forall k' l', k' < k -> ls !! k' = Some l' ->
       search youtube_url_pattern l' = None) ->
    first_url ls = Some (group0 m).
Proof.
  induction ls as [|l0 ls IH]; intros k l m Hk Hm Hbefore.
  - destruct k; discriminate.
  - simpl. destruct k as [|k].
    + injection Hk as ->. now rewrite Hm.
    + rewrite (Hbefore 0 l0) by (reflexivity || lia).
      apply (IH k l m Hk Hm). intros k' l' Hlt Hk'.
      apply (Hbefore (S k') l'); [lia|exact Hk'].
Qed.

Lemma window_lookup (output_lines : list str) (i k : nat) :
  k < 4 -> window output_lines i !! k = output_lines !! (i + k).
Proof.
  intros Hk. unfold window. rewrite lookup_take_lt by exact Hk.
  apply lookup_drop.
Qed.

Lemma window_lookup_Some (output_lines : list str) (i k : nat) (l : str) :
  window output_lines i !! k = Some l ->
  k < 4 /\ output_lines !! (i + k) = Some l.
Proof.
  intros Hk. destruct (Nat.lt_ge_cases k 4) as [Hlt|Hge].
  - split; [exact Hlt|]. now rewrite <- window_lookup.
  - unfold window in Hk. now rewrite lookup_take_ge in Hk.
Qed.

(** Lines added after the list extend its windows at the end. *)
Lemma window_app (P S : list str) (i : nat) :
  exists more, window (P ++ S) i = window P i ++ more
               /\ (i + 4 <= length P -> more = []).
Proof.
  unfold window. rewrite drop_app, take_app. eexists. split; [reflexivity|].
  intros Hi. rewrite length_drop.
  replace (4 - (length P - i)) with 0 by lia. reflexivity.
Qed.

Lemma sorted_empty : sorted ∅ = [].
Proof. unfold sorted. now rewrite elements_empty. Qed.

Lemma sorted_singleton (r : str) : sorted {[ r ]} = [r].
Proof. unfold sorted. now rewrite elements_singleton. Qed.

(** The result on a single line. *)
Lemma parse_single (line : str) :
  parse_failed_downloads [line]
  = Return match line_record [line] 0 line with
           | Some r => [r]
           | None => []
           end.
Proof.
  rewrite parse_failed_downloads_spec. f_equal.
  unfold records. simpl.
  destruct (line_record [line] 0 line); simpl.
  - rewrite (right_id_L ∅ (∪)). apply sorted_singleton.
  - apply sorted_empty.
Qed.

Lemma lstrip_idem (s : str) : lstrip (lstrip s) = lstrip s.
Proof.
  destruct (lstrip_split s) as (_ & _ & _ & Hh).
  destruct (lstrip s) as [|c t]; [reflexivity|]. simpl. now rewrite Hh.
Qed.

Lemma strip_lstrip (s : str) : strip (lstrip s) = strip s.
Proof. unfold strip. now rewrite lstrip_idem. Qed.

(** The record of a line whose first marker phrase and colon are followed
    by [mid] and then the end of the line or a further colon. *)
Lemma line_record_explicit (output_lines : list str) (i : nat)
    (pre M mid tail : str) :
  In M markers ->
  Forall (fun c => c <> newline) pre ->
  (forall j M', j < length pre -> In M' markers ->
     strip_prefix (M' ++ [colon])
       (drop j (pre ++ M ++ colon :: mid ++ tail)) = None) ->
  Forall (fun c => c <> colon /\ c <> newline) mid ->
  (tail = [] \/ exists rest, tail = colon :: rest
                             /\ Forall (fun c => c <> newline) rest) ->
  line_record output_lines i (pre ++ M ++ colon :: mid ++ tail)
  = if truthy (strip mid) then Some (strip mid) else None.
Proof.
  intros HM Hpre Hfirst Hmid Htail.
  destruct (explicit_search pre M mid tail HM Hpre Hfirst Hmid Htail)
    as (m & Hs & Hg).
  unfold line_record. rewrite Hs, Hg, strip_lstrip. reflexivity.
Qed.

(** A record of some line is in the result. *)
Lemma line_record_In (output_lines : list str) (i : nat) (line r : str) :
  output_lines !! i = Some line ->
  line_record output_lines i line = Some r ->
  exists result,
    parse_failed_downloads output_lines = Return result /\ In r result.
Proof.
  intros Hl Hr.
  destruct (parse_failed_downloads_In output_lines) as (result & Hp & Hin).
  exists result. split; [exact Hp|]. apply Hin. eauto.
Qed.

(** The record of a line of [P] is the same in [P ++ S] when its window in
    [P] is whole or already holds a watch link. *)
Lemma line_record_app (P S : list str) (i : nat) (line : str) :
  (search explicit_failure_pattern line = None ->
   contains audio_marker line = true ->
   i + 4 <= length P \/ first_url (window P i) <> None) ->
  line_record (P ++ S) i line = line_record P i line.
Proof.
  intros Hwin. unfold line_record.
  destruct (search explicit_failure_pattern line); [reflexivity|].
  destruct (contains audio_marker line); [|reflexivity].
  destruct (window_app P S i) as (more & -> & Hmore).
  rewrite first_url_app.
  destruct (first_url (window P i)) as [u|] eqn:E; [reflexivity|].
  destruct (Hwin eq_refl eq_refl) as [Hi|Hu]; [|congruence].
  rewrite (Hmore Hi). reflexivity.
Qed.

(** The watch link the window of line [i] gives, from the line [j] of the
    window that has the first one. *)
Lemma first_url_window_at (output_lines : list str) (i j : nat)
    (lj : str) (m : re_match) :
  i <= j < i + 4 ->
  output_lines !! j = Some lj ->
  search youtube_url_pattern lj = Some m ->
  (forall j' l', i <= j' < j -> output_lines !! j' = Some l' ->
     search youtube_url_pattern l' = None) ->
  first_url (window output_lines i) = Some (group0 m).
Proof.
  intros Hj Hlj Hm Hbefore.
  apply (first_url_at _ (j - i) lj m).
  - rewrite window_lookup by lia. now replace (i + (j - i)) with j by lia.
  - exact Hm.
  - intros k' l' Hk' Hl'. apply window_lookup_Some in Hl' as [_ Hl'].
    apply (Hbefore (i + k') l'); [lia|exact Hl'].
Qed.

Lemma first_url_window_None (output_lines : list str) (i : nat) :
  (forall j l, i <= j < i + 4 -> output_lines !! j = Some l ->
     search youtube_url_pattern l = None) ->
  first_url (window output_lines i) = None.
Proof.
  intros Hnone. apply first_url_None. intros k l Hk.
  apply window_lookup_Some in Hk as [Hk4 Hk].
  apply (Hnone (i + k) l); [lia|exact Hk].
Qed.

Lemma first_url_window_found (output_lines : list str) (i j : nat)
    (lj : str) (m : re_match) :
  i <= j < i + 4 ->
  output_lines !! j = Some lj ->
  search youtube_url_pattern lj = Some m ->
  first_url (window output_lines i) <> None.
Proof.
  intros Hj Hlj Hm Hnone.
  rewrite first_url_None in Hnone.
  specialize (Hnone (j - i) lj). rewrite window_lookup in Hnone by lia.
  replace (i + (j - i)) with j in Hnone by lia.
  specialize (Hnone Hlj). congruence.
Qed.

End Facts.
End WindowFacts.

(** * The claims of the specification *)

Import PyStr Re ReFacts Downloader LineByLine.
Import ClassifierFacts ExplicitFacts WindowFacts.

Section Claims.
Context `{UnicodeDB}.

(** C1, on the code as it is. The first marker phrase of the pattern ends in
    a colon and the pattern asks for one more colon after the phrase, so the
    line [Could not find a match for: Song Title - Artist Name: reason text]
    of the specification is not matched and yields no record; the same line
    with the colon doubled yields the record [Song Title - Artist Name]. *)
Theorem C1_could_not_find_needs_two_colons :
  search explicit_failure_pattern
    (py "Could not find a match for: Song Title - Artist Name: reason text")
  = None
  /\ parse_failed_downloads
       [py "Could not find a match for: Song Title - Artist Name: reason text"]
     = Return []
  /\ parse_failed_downloads
       [py "Could not find a match for:: Song Title - Artist Name: reason text"]
     = Return [py "Song Title - Artist Name"].
Proof. split_and!; vm_compute; reflexivity. Qed.

(** C3. On every list of lines the call returns a list: it raises nothing,
    one unit of fuel per line is enough for its loop and more fuel gives the
    same list; on the empty list it returns the empty list. *)
Theorem C3_returns_on_every_input :
  (forall output_lines : list str,
     exists result,
       parse_failed_downloads output_lines = Return result
       /\ forall extra,
            parse_failed_downloads_fuel (length output_lines + extra)
              output_lines
            = Return result)
  /\ parse_failed_downloads [] = Return [].
Proof.
  split.
  - intros L. exists (sorted (records L)). split.
    + apply parse_failed_downloads_spec.
    + intros extra. apply parse_failed_downloads_fuel_spec. lia.
  - rewrite parse_failed_downloads_spec. unfold records. simpl.
    now rewrite sorted_empty.
Qed.

(** C4. The returned list is sorted in the lexicographic order of the code
    points and has no repeated entry, whatever the lines; a failure line
    given twice yields its record once; and the list depends on the set of
    records only, so the order of the lines has no part in the order of the
    result. *)
Theorem C4_sorted_without_duplicates :
  (forall output_lines : list str,
     exists result,
       parse_failed_downloads output_lines = Return result
       /\ StronglySorted str_le result /\ NoDup result)
  /\ parse_failed_downloads
       [py "Failed to download: Another Song";
        py "Failed to download: Another Song"]
     = Return [py "Another Song"]
  /\ (parse_failed_downloads
        [py "Failed to download: b"; py "Failed to download: a"]
      = Return [py "a"; py "b"]
      /\ parse_failed_downloads
           [py "Failed to download: a"; py "Failed to download: b"]
         = Return [py "a"; py "b"])
  /\ (forall (lines1 lines2 : list str) result1 result2,
        parse_failed_downloads lines1 = Return result1 ->
        parse_failed_downloads lines2 = Return result2 ->
        (forall r, In r result1 <-> In r result2) ->
        result1 = result2).
Proof.
  split_and!.
  - intros L. exists (sorted (records L)). split_and!.
    + apply parse_failed_downloads_spec.
    + apply Sorted_sorted.
    + apply NoDup_sorted.
  - vm_compute; reflexivity.
  - vm_compute; reflexivity.
  - vm_compute; reflexivity.
  - intros L1 L2 r1 r2 H1 H2 Hiff.
    rewrite parse_failed_downloads_spec in H1, H2.
    injection H1 as <-. injection H2 as <-.
    apply strictly_sorted_unique; [| |exact Hiff];
      apply strictly_sorted; auto using Sorted_sorted, NoDup_sorted.
Qed.

(** C5. The line [Failed to download: Another Song] yields exactly the
    record [Another Song], and [Failed to download: Song: Remix Version]
    yields [Song]. In general, on a line without newline whose first marker
    phrase followed by a colon is [M], the text [mid] between that colon and
    the next colon (or the end of the line), trimmed, is the record the turn
    of the loop adds, provided it is not empty. *)
Theorem C5_capture_stops_at_colon :
  parse_failed_downloads [py "Failed to download: Another Song"]
  = Return [py "Another Song"]
  /\ parse_failed_downloads [py "Failed to download: Song: Remix Version"]
     = Return [py "Song"]
  /\ (forall (output_lines : list str) (i : nat) (pre M mid tail : str),
        output_lines !! i = Some (pre ++ M ++ colon :: mid ++ tail) ->
        In M markers ->
        Forall (fun c => c <> newline) pre ->
        (forall j M', j < length pre -> In M' markers ->
           strip_prefix (M' ++ [colon])
             (drop j (pre ++ M ++ colon :: mid ++ tail)) = None) ->
        Forall (fun c => c <> colon /\ c <> newline) mid ->
        (tail = [] \/ exists rest, tail = colon :: rest
                        /\ Forall (fun c => c <> newline) rest) ->
        truthy (strip mid) = true ->
        (forall fs, loop_body output_lines (i, fs)
                    = Return (i + 1, {[ strip mid ]} ∪ fs))
        /\ exists result,
             parse_failed_downloads output_lines = Return result
             /\ In (strip mid) result).
Proof.
  split_and!.
  - vm_compute; reflexivity.
  - vm_compute; reflexivity.
  - intros L i pre M mid tail Hl HM Hpre Hfirst Hmid Htail Hne.
    pose proof (line_record_explicit L i pre M mid tail
                  HM Hpre Hfirst Hmid Htail) as Hrec.
    rewrite Hne in Hrec. split.
    + intros fs. rewrite (loop_body_spec _ _ _ _ Hl), Hrec. reflexivity.
    + exact (line_record_In _ _ _ _ Hl Hrec).
Qed.

(** C9. The copy of the routine in the desktop front-end computes the same
    function as the one of the terminal front-end, with any fuel and so as
    calls. *)
Theorem C9_front_ends_agree :
  forall output_lines : list str,
    Gui._parse_failed_downloads output_lines
    = Downloader.parse_failed_downloads output_lines
    /\ forall fuel,
         Gui._parse_failed_downloads_fuel fuel output_lines
         = Downloader.parse_failed_downloads_fuel fuel output_lines.
Proof. intros L. split; [|intros fuel]; reflexivity. Qed.

(** C10. When the first pattern matches a line and the text it captures is
    empty once trimmed, the turn of the loop moves the cursor by one and
    leaves the set as it is: no record is added and the second branch is not
    taken, also when the line holds the audio-provider marker. So for a line
    that is just [Failed to download:], with or without the marker before
    it. *)
Theorem C10_empty_capture_consumes_line :
  (forall (output_lines : list str) (i : nat) (line : str)
          (m : re_match) (g : str) (fs : gset str),
     output_lines !! i = Some line ->
     search explicit_failure_pattern line = Some m ->
     group1 m = Some g ->
     strip g = [] ->
     loop_body output_lines (i, fs) = Return (i + 1, fs))
  /\ parse_failed_downloads [py "Failed to download:"] = Return []
  /\ (contains (py "AudioProviderError:")
        (py "ERROR AudioProviderError: Failed to download:") = true
      /\ parse_failed_downloads
           [py "ERROR AudioProviderError: Failed to download:"]
         = Return [])
  /\ parse_failed_downloads [py "ERROR AudioProviderError: no song"]
     = Return [generic_record (py "ERROR AudioProviderError: no song")].
Proof.
  split_and!.
  - intros L i line m g fs Hl Hs Hg Hempty.
    rewrite (loop_body_spec _ _ _ _ Hl). unfold line_record.
    rewrite Hs, Hg, Hempty. reflexivity.
  - vm_compute; reflexivity.
  - vm_compute; reflexivity.
  - vm_compute; reflexivity.
  - vm_compute; reflexivity.
Qed.

(** C6. When a line that the first pattern does not match holds the
    audio-provider marker, and line [j] is the first of it and the next three
    to hold a watch link, the turn of the loop at that line adds exactly the
    record [Download failed for YouTube URL: <link> (AudioProviderError)]
    with the first link found in line [j], and the result holds it. The
    three lines of the specification yield exactly that one record. *)
Theorem C6_url_in_window :
  (forall (output_lines : list str) (i j : nat) (line lj : str)
          (m : re_match),
     output_lines !! i = Some line ->
     search explicit_failure_pattern line = None ->
     contains (py "AudioProviderError:") line = true ->
     i <= j < i + 4 ->
     output_lines !! j = Some lj ->
     search youtube_url_pattern lj = Some m ->
     (forall j' l', i <= j' < j -> output_lines !! j' = Some l' ->
        search youtube_url_pattern l' = None) ->
     (forall fs, loop_body output_lines (i, fs)
                 = Return (i + 1, {[ url_record (group0 m) ]} ∪ fs))
     /\ exists result,
          parse_failed_downloads output_lines = Return result
          /\ In (url_record (group0 m)) result)
  /\ parse_failed_downloads
       [py "ERROR AudioProviderError: something"; py "some noise";
        py "https://music.youtube.com/watch?v=abc123XYZ_-"]
     = Return
         [py "Download failed for YouTube URL: https://music.youtube.com/watch?v=abc123XYZ_- (AudioProviderError)"].
Proof.
  split; [|vm_compute; reflexivity].
  intros L i j line lj m Hl Hex Hmark Hj Hlj Hm Hbefore.
  assert (Hrec : line_record L i line = Some (url_record (group0 m))).
  { unfold line_record. rewrite Hex. fold audio_marker in Hmark.
    rewrite Hmark.
    now rewrite (first_url_window_at L i j lj m Hj Hlj Hm Hbefore). }
  split.
  - intros fs. rewrite (loop_body_spec _ _ _ _ Hl), Hrec. reflexivity.
  - exact (line_record_In _ _ _ _ Hl Hrec).
Qed.

(** C7. When a line that the first pattern does not match holds the
    audio-provider marker and neither it nor any of the next three lines
    (as far as the list goes) holds a watch link, the turn of the loop at
    that line adds exactly the record [Download failed due to
    AudioProviderError (details in log: '<line>')] on the line itself, and
    the result holds it. With the link on the fourth or on the fifth line
    after the marker the result is that record alone. *)
Theorem C7_no_url_in_window :
  (forall (output_lines : list str) (i : nat) (line : str),
     output_lines !! i = Some line ->
     search explicit_failure_pattern line = None ->
     contains (py "AudioProviderError:") line = true ->
     (forall j l, i <= j < i + 4 -> output_lines !! j = Some l ->
        search youtube_url_pattern l = None) ->
     (forall fs, loop_body output_lines (i, fs)
                 = Return (i + 1, {[ generic_record line ]} ∪ fs))
     /\ exists result,
          parse_failed_downloads output_lines = Return result
          /\ In (generic_record line) result)
  /\ parse_failed_downloads
       [py "ERROR AudioProviderError: something"; py "noise 1";
        py "noise 2"; py "noise 3"; py "noise 4";
        py "https://music.youtube.com/watch?v=abc123XYZ_-"]
     = Return
         [py "Download failed due to AudioProviderError (details in log: 'ERROR AudioProviderError: something')"]
  /\ parse_failed_downloads
       [py "ERROR AudioProviderError: something"; py "noise 1";
        py "noise 2"; py "noise 3";
        py "https://music.youtube.com/watch?v=abc123XYZ_-"]
     = Return
         [py "Download failed due to AudioProviderError (details in log: 'ERROR AudioProviderError: something')"].
Proof.
  split_and!; [|vm_compute; reflexivity|vm_compute; reflexivity].
  intros L i line Hl Hex Hmark Hnone.
  assert (Hrec : line_record L i line = Some (generic_record line)).
  { unfold line_record. rewrite Hex. fold audio_marker in Hmark.
    rewrite Hmark. now rewrite (first_url_window_None L i Hnone). }
  split.
  - intros fs. rewrite (loop_body_spec _ _ _ _ Hl), Hrec. reflexivity.
  - exact (line_record_In _ _ _ _ Hl Hrec).
Qed.

(** C2, as amended. Every record returned for a prefix [P] is returned for
    [P] followed by any further lines, but for one kind: the generic record
    of a line among the last three of [P] that takes the audio-provider
    branch and has no watch link in its window within [P]. (Such a record
    can give way to the record of a link once more lines arrive.) *)
Theorem C2_prefix_records_kept (P S : list str) :
  exists result_P result_L,
    parse_failed_downloads P = Return result_P
    /\ parse_failed_downloads (P ++ S) = Return result_L
    /\ forall r,
         In r result_P ->
         In r result_L
         \/ exists i line,
              P !! i = Some line
              /\ length P < i + 4
              /\ search explicit_failure_pattern line = None
              /\ contains (py "AudioProviderError:") line = true
              /\ (forall j lj, i <= j < i + 4 -> P !! j = Some lj ->
                    search youtube_url_pattern lj = None)
              /\ r = generic_record line.
Proof.
  destruct (parse_failed_downloads_In P) as (rp & HP & HinP).
  destruct (parse_failed_downloads_In (P ++ S)) as (rl & HL & HinL).
  exists rp, rl. split_and!; [exact HP|exact HL|].
  intros r Hr. apply HinP in Hr as (i & line & Hl & Hrec).
  assert (Hkept : line_record (P ++ S) i line = line_record P i line ->
                  In r rl).
  { intros E. apply HinL. exists i, line. split.
    - now apply lookup_app_l_Some.
    - now rewrite E. }
  destruct (search explicit_failure_pattern line) as [m|] eqn:Hex.
  { left. apply Hkept, line_record_app. congruence. }
  destruct (contains audio_marker line) eqn:Hmark.
  2: { left. apply Hkept, line_record_app. congruence. }
  destruct (first_url (window P i)) as [u|] eqn:Hu.
  { left. apply Hkept, line_record_app. intros _ _. right. congruence. }
  destruct (Nat.le_gt_cases (i + 4) (length P)) as [Hin|Hout].
  { left. apply Hkept, line_record_app. intros _ _. now left. }
  right. exists i, line. split_and!.
  - exact Hl.
  - exact Hout.
  - exact Hex.
  - exact Hmark.
  - intros j lj Hj Hlj. rewrite first_url_None in Hu.
    apply (Hu (j - i) lj). rewrite window_lookup by lia.
    now replace (i + (j - i)) with j by lia.
  - unfold line_record in Hrec. rewrite Hex, Hmark, Hu in Hrec.
    now injection Hrec as <-.
Qed.

(** C8, as amended. The turn of the loop at a line that takes the
    audio-provider branch moves the cursor by one, and a line [j] among the
    next three is classified by its own turn: when the first pattern matches
    it with a capture that is not empty once trimmed, the result holds that
    capture, and when the first pattern does not match it and it holds the
    marker, the result holds the record its turn adds. *)
Theorem C8_lookahead_lines_still_classified
    (output_lines : list str) (i j : nat) (line_i line_j : str) :
  output_lines !! i = Some line_i ->
  search explicit_failure_pattern line_i = None ->
  contains (py "AudioProviderError:") line_i = true ->
  i < j <= i + 3 ->
  output_lines !! j = Some line_j ->
  (forall fs, exists fs',
     loop_body output_lines (i, fs) = Return (i + 1, fs'))
  /\ exists result,
       parse_failed_downloads output_lines = Return result
       /\ (forall m g,
             search explicit_failure_pattern line_j = Some m ->
             group1 m = Some g ->
             truthy (strip g) = true ->
             (forall fs, loop_body output_lines (j, fs)
                         = Return (j + 1, {[ strip g ]} ∪ fs))
             /\ In (strip g) result)
       /\ (search explicit_failure_pattern line_j = None ->
           contains (py "AudioProviderError:") line_j = true ->
           exists r,
             (forall fs, loop_body output_lines (j, fs)
                         = Return (j + 1, {[ r ]} ∪ fs))
             /\ In r result).
Proof.
  intros Hi Hex Hmark Hj Hlj.
  split.
  - intros fs. rewrite (loop_body_spec _ _ _ _ Hi). eauto.
  - destruct (parse_failed_downloads_In output_lines)
      as (result & HP & Hin).
    exists result. split_and!; [exact HP| |].
    + intros m g Hm Hg Hne.
      assert (Hrec : line_record output_lines j line_j = Some (strip g)).
      { unfold line_record. now rewrite Hm, Hg, Hne. }
      split.
      * intros fs. rewrite (loop_body_spec _ _ _ _ Hlj), Hrec. reflexivity.
      * apply Hin. eauto.
    + intros Hexj Hmarkj.
      assert (exists r, line_record output_lines j line_j = Some r)
        as (r & Hrec).
      { unfold line_record. rewrite Hexj. fold audio_marker in Hmarkj.
        rewrite Hmarkj.
        destruct (first_url (window output_lines j)); eauto. }
      exists r. split.
      * intros fs. rewrite (loop_body_spec _ _ _ _ Hlj), Hrec. reflexivity.
      * apply Hin. eauto.
Qed.

End Claims.

(** ** The claims that fail as stated, at explicit inputs *)

(** C2 as stated fails: the one line [ERROR AudioProviderError: something]
    yields the generic record, and followed by a line with a watch link it
    yields the record of the link instead, so a record of the prefix is gone
    from the result of the longer list. *)
Lemma C2_counterexample :
  (forall db : UnicodeDB,
     parse_failed_downloads [py "ERROR AudioProviderError: something"]
     = Return
         [py "Download failed due to AudioProviderError (details in log: 'ERROR AudioProviderError: something')"])
  /\ (forall db : UnicodeDB,
        parse_failed_downloads
          ([py "ERROR AudioProviderError: something"]
           ++ [py "https://music.youtube.com/watch?v=abc123XYZ_-"])
        = Return
            [py "Download failed for YouTube URL: https://music.youtube.com/watch?v=abc123XYZ_- (AudioProviderError)"])
  /\ ~ (forall (db : UnicodeDB) (P S : list str) result_P result_L,
          parse_failed_downloads P = Return result_P ->
          parse_failed_downloads (P ++ S) = Return result_L ->
          forall r, In r result_P -> In r result_L).
Proof.
  split_and!.
  - intros db. vm_compute. reflexivity.
  - intros db. vm_compute. reflexivity.
  - intros Hclaim.
    specialize (Hclaim ascii_db
                  [py "ERROR AudioProviderError: something"]
                  [py "https://music.youtube.com/watch?v=abc123XYZ_-"]
                  _ _ eq_refl eq_refl _ (or_introl eq_refl)).
    vm_compute in Hclaim. destruct Hclaim as [Heq|[]]. discriminate Heq.
Qed.

(** C8 as stated fails: after the line [ERROR AudioProviderError:
    something], the line [Failed to download:] lies in the lookahead window
    and the first pattern matches it, yet its turn adds no record, the text
    captured being empty; the result is the record of the first line alone. *)
Lemma C8_counterexample :
  search explicit_failure_pattern (py "Failed to download:")
  = Some {| group0 := py "Failed to download:"; group1 := Some [] |}
  /\ (forall (db : UnicodeDB) (fs : gset str),
        loop_body
          [py "ERROR AudioProviderError: something";
           py "Failed to download:"] (1, fs)
        = Return (2, fs))
  /\ (forall db : UnicodeDB,
        parse_failed_downloads
          [py "ERROR AudioProviderError: something";
           py "Failed to download:"]
        = Return
            [py "Download failed due to AudioProviderError (details in log: 'ERROR AudioProviderError: something')"]).
Proof.
  split_and!.
  - vm_compute. reflexivity.
  - intros db fs.
    rewrite (loop_body_spec _ _ _ (py "Failed to download:")) by reflexivity.
    assert (line_record
              [py "ERROR AudioProviderError: something";
               py "Failed to download:"] 1 (py "Failed to download:")
            = None) as -> by (vm_compute; reflexivity).
    reflexivity.
  - intros db. vm_compute. reflexivity.
Qed.

(** * Further properties of the code *)

(** ** The matcher against what a pattern can match *)

Module ReSound.
Import PyStr Re ReFacts ReSemantics.

Section Stars.
Context {A : Type}.

Lemma star_greedy_sound p s (k : str -> option A) x :
  star_greedy p s k = Some x ->
  exists w rest, s = w ++ rest /\ Forall (fun c => p c = true) w
                 /\ k rest = Some x.
Proof.
  induction s as [|c s IH]; simpl; intros Hm.
  - exists [], []. auto.
  - destruct (p c) eqn:Hc.
    + destruct (star_greedy p s k) as [y|] eqn:E.
      * destruct (IH Hm) as (w & rest & -> & Hw & Hk).
        exists (c :: w), rest. auto.
      * exists [], (c :: s). auto.
    + exists [], (c :: s). auto.
Qed.

(** The lazy star stops at the first position its continuation accepts. *)
Lemma star_lazy_sound p s (k : str -> option A) x :
  star_lazy p s k = Some x ->
  exists w rest, s = w ++ rest /\ Forall (fun c => p c = true) w
                 /\ k rest = Some x
                 /\ forall j, j < length w -> k (drop j s) = None.
Proof.
  induction s as [|c s IH]; simpl; intros Hm.
  - destruct (k []) eqn:E; [|discriminate]. exists [], [].
    split_and!; [reflexivity|constructor|congruence|].
    intros j Hj. simpl in Hj. lia.
  - destruct (k (c :: s)) eqn:E.
    + exists [], (c :: s). split_and!; [reflexivity|constructor|congruence|].
      intros j Hj. simpl in Hj. lia.
    + destruct (p c) eqn:Hc; [|discriminate].
      destruct (IH Hm) as (w & rest & -> & Hw & Hk & Hfirst).
      exists (c :: w), rest. split_and!; auto.
      intros [|j] Hj; [exact E|]. simpl. apply Hfirst. simpl in Hj. lia.
Qed.

(** The greedy star finds a match whenever some run of characters of the
    class leads to one. *)
Lemma star_greedy_complete p w rest (k : str -> option A) y :
  Forall (fun c => p c = true) w ->
  k rest = Some y ->
  exists z, star_greedy p (w ++ rest) k = Some z.
Proof.
  intros Hw Hk. induction Hw as [|c w Hc _ (z & IH)]; simpl.
  - destruct rest as [|c rest]; simpl; [eauto|].
    destruct (p c); [|eauto].
    destruct (star_greedy p rest k); eauto.
  - simpl in Hc. rewrite Hc, IH. eauto.
Qed.

(** With a continuation that accepts everything, the greedy star takes the
    longest run. *)
Lemma star_greedy_total p s (k : str -> option A) :
  (forall s', k s' <> None) ->
  star_greedy p s k = k (snd (span p s)).
Proof.
  intros Hk. induction s as [|c s IH]; simpl; [reflexivity|].
  destruct (p c); [|reflexivity].
  rewrite IH. destruct (span p s) as [run rest]. simpl.
  destruct (k rest) eqn:E; [reflexivity|]. now apply Hk in E.
Qed.

(** Whatever the matcher accepts, the pattern can match. *)
Lemma rmatch_sound (r : regex) :
  forall s g (k : str -> option str -> option A) x,
    rmatch r s g k = Some x ->
    exists w rest g',
      s = w ++ rest /\ denotes r w rest /\ k rest g' = Some x.
Proof.
  induction r as [l|p|gr p| |r1 IH1 r2 IH2|r1 IH1 r2 IH2|r1 IH1|r1 IH1];
    intros s g k x Hm; simpl in Hm.
  - destruct (strip_prefix l s) as [s'|] eqn:E; [|discriminate].
    apply strip_prefix_Some in E. exists l, s', g. simpl. auto.
  - destruct s as [|c s]; [discriminate|].
    destruct (p c) eqn:Hc; [|discriminate]. exists [c], s, g. simpl.
    split_and!; eauto.
  - assert (exists w rest, s = w ++ rest
              /\ Forall (fun c => p c = true) w /\ k rest g = Some x)
      as (w & rest & -> & Hw & Hk).
    { destruct gr.
      - eapply star_greedy_sound. exact Hm.
      - apply star_lazy_sound in Hm as (w & rest & ? & ? & ? & _). eauto. }
    exists w, rest, g. simpl. auto.
  - destruct (at_eol s) eqn:E; [|discriminate]. exists [], s, g.
    simpl. auto.
  - apply IH1 in Hm as (w1 & s1 & g1 & -> & H1 & Hm).
    apply IH2 in Hm as (w2 & s2 & g2 & -> & H2 & Hk).
    exists (w1 ++ w2), s2, g2. split_and!.
    + now rewrite <- app_assoc.
    + simpl. exists w1, w2. auto.
    + exact Hk.
  - destruct (rmatch r1 s g k) as [y|] eqn:E.
    + injection Hm as ->.
      apply IH1 in E as (w & rest & g' & -> & Hd & Hk).
      exists w, rest, g'. simpl. auto.
    + apply IH2 in Hm as (w & rest & g' & -> & Hd & Hk).
      exists w, rest, g'. simpl. auto.
  - destruct (rmatch r1 s g k) as [y|] eqn:E.
    + injection Hm as ->.
      apply IH1 in E as (w & rest & g' & -> & Hd & Hk).
      exists w, rest, g'. simpl. auto.
    + exists [], s, g. simpl. auto.
  - apply IH1 in Hm as (w & rest & g' & -> & Hd & Hk).
    eexists w, rest, _. simpl. split_and!; [reflexivity|exact Hd|exact Hk].
Qed.

End Stars.

Lemma span_spec (p : char -> bool) (s : str) :
  s = fst (span p s) ++ snd (span p s)
  /\ Forall (fun c => p c = true) (fst (span p s))
  /\ match snd (span p s) with
     | [] => True
     | c :: _ => p c = false
     end.
Proof.
  induction s as [|c s (E & Hrun & Hrest)]; simpl; [auto|].
  destruct (p c) eqn:Hc.
  - destruct (span p s) as [run rest]. simpl in *.
    split_and!; [congruence|auto|exact Hrest].
  - simpl. rewrite Hc. auto.
Qed.

End ReSound.

(** ** The shape of the watch links *)

Module UrlShape.
Import PyStr Re ReFacts ReSemantics ReSound Downloader LineByLine Shapes.

Lemma rmatch_seq_sound {A} (r1 r2 : regex) s g
    (k : str -> option str -> option A) x :
  rmatch (r1 >> r2) s g k = Some x ->
  exists w rest g',
    s = w ++ rest /\ denotes r1 w rest /\ rmatch r2 rest g' k = Some x.
Proof. intros Hm. simpl in Hm. now apply rmatch_sound in Hm. Qed.

Section Shape.
Context `{UnicodeDB}.

Lemma match_here_watch_link (t : str) (m : re_match) :
  match_here youtube_url_pattern t = Some m ->
  exists after,
    t = group0 m ++ after
    /\ watch_link (group0 m)
    /\ match after with
       | [] => True
       | c :: _ => word_or_hyphen c = false
       end.
Proof.
  unfold match_here, youtube_url_pattern. intros Hm.
  apply rmatch_seq_sound in Hm as (w1 & r1 & g1 & E1 & D1 & Hm).
  apply rmatch_seq_sound in Hm as (w2 & r2 & g2 & E2 & D2 & Hm).
  apply rmatch_seq_sound in Hm as (w3 & r3 & g3 & E3 & D3 & Hm).
  apply rmatch_seq_sound in Hm as (w4 & r4 & g4 & E4 & D4 & Hm).
  apply rmatch_seq_sound in Hm as (w5 & r5 & g5 & E5 & D5 & Hm).
  apply rmatch_seq_sound in Hm as (w6 & r6 & g6 & E6 & D6 & Hm).
  apply rmatch_seq_sound in Hm as (w7 & r7 & g7 & E7 & D7 & Hm).
  cbn [rmatch] in Hm. rewrite star_greedy_total in Hm by discriminate.
  destruct (span_spec word_or_hyphen r7) as (E8 & Hrun & Hafter).
  destruct (span word_or_hyphen r7) as [run after]. simpl in *.
  destruct D7 as (c & -> & Hc).
  assert (Et : t = (w1 ++ w2 ++ w3 ++ w4 ++ w5 ++ w6 ++ c :: run) ++ after).
  { subst. now rewrite <- !app_assoc. }
  injection Hm as <-. simpl.
  assert (Hu : take (length t - length after) t
               = w1 ++ w2 ++ w3 ++ w4 ++ w5 ++ w6 ++ c :: run)
    by (rewrite Et; apply take_app_diff).
  rewrite Hu. exists after. split_and!; [exact Et| |exact Hafter].
  exists w2, w4, w5, (c :: run). subst w1 w3 w6.
  split_and!.
  - reflexivity.
  - destruct D2 as [-> | ->]; auto.
  - destruct D4 as [-> | ->]; auto.
  - destruct D5 as [-> | ->]; auto.
  - discriminate.
  - constructor; assumption.
Qed.

(** What [youtube_url_pattern.search(line)] finds lies in the line. *)
Lemma search_watch_link (line : str) (m : re_match) :
  search youtube_url_pattern line = Some m ->
  exists before after,
    line = before ++ group0 m ++ after
    /\ watch_link (group0 m)
    /\ match after with
       | [] => True
       | c :: _ => word_or_hyphen c = false
       end.
Proof.
  intros Hs. apply search_inv in Hs as (before & t & -> & Hm).
  apply match_here_watch_link in Hm as (after & Et & Hshape & Hafter).
  exists before, after. split_and!; [|exact Hshape|exact Hafter].
  now rewrite <- Et.
Qed.

End Shape.
End UrlShape.

(** ** The shape of the captured titles *)

Module CaptureShape.
Import PyStr Re ReFacts ReSemantics ReSound UrlShape Downloader LineByLine.
Import ExplicitFacts Shapes.

Lemma dot_colon : dot colon = true.
Proof. reflexivity. Qed.

(** Group 1 of a match of the first pattern follows a marker phrase, a colon
    and white space, and holds neither a colon nor a newline: the lazy star
    of the group stops at the first colon from which the end of the line can
    be reached. *)
Lemma match_here_capture (t : str) (m : re_match) :
  match_here explicit_failure_pattern t = Some m ->
  exists before M ws g after,
    group1 m = Some g
    /\ t = before ++ M ++ colon :: ws ++ g ++ after
    /\ In M markers
    /\ Forall (fun c => isspace c = true) ws
    /\ Forall (fun c => c <> colon /\ c <> newline) g.
Proof.
  unfold match_here, explicit_failure_pattern. intros Hm.
  apply rmatch_seq_sound in Hm as (w1 & r1 & g1 & E1 & D1 & Hm).
  apply rmatch_seq_sound in Hm as (w2 & r2 & g2 & E2 & D2 & Hm).
  apply rmatch_seq_sound in Hm as (w3 & r3 & g3 & E3 & D3 & Hm).
  apply rmatch_seq_sound in Hm as (w4 & r4 & g4 & E4 & D4 & Hm).
  cbn [rmatch] in Hm.
  apply star_lazy_sound in Hm as (w & rest & -> & Hw & Hk & Hfirst).
  rewrite take_app_diff in Hk.
  assert (Hend : group1 m = Some w
                 /\ exists d q, rest = d ++ q
                      /\ Forall (fun c => dot c = true) d
                      /\ at_eol q = true).
  { destruct (strip_prefix (py ":") rest) as [s'|] eqn:Ep.
    - destruct (star_greedy dot s' _) as [x|] eqn:Es.
      + injection Hk as ->.
        apply star_greedy_sound in Es as (d & q & -> & Hd & Hq).
        destruct (at_eol q) eqn:Eq; [|discriminate].
        injection Hq as <-. split; [reflexivity|].
        apply strip_prefix_Some in Ep.
        exists (colon :: d), q. split_and!; [exact Ep| |exact Eq].
        constructor; [exact dot_colon|exact Hd].
      + destruct (at_eol rest) eqn:Eq; [|discriminate].
        injection Hk as <-. split; [reflexivity|].
        exists [], rest. split_and!; [reflexivity|constructor|exact Eq].
    - destruct (at_eol rest) eqn:Eq; [|discriminate].
      injection Hk as <-. split; [reflexivity|].
      exists [], rest. split_and!; [reflexivity|constructor|exact Eq]. }
  destruct Hend as (Hg & d & q & -> & Hd & Hq).
  exists w1, w2, w4, w, (d ++ q). split_and!.
  - exact Hg.
  - simpl in D3. subst. reflexivity.
  - destruct D2 as [-> | [-> | ->]];
      [left|right; left|right; right; left]; reflexivity.
  - exact D4.
  - apply Forall_lookup. intros j c Hj. split.
    + intros ->.
      specialize (Hfirst j (lookup_lt_Some _ _ _ Hj)).
      rewrite drop_app_le in Hfirst
        by (apply Nat.lt_le_incl, (lookup_lt_Some _ _ _ Hj)).
      rewrite (drop_S _ _ _ Hj) in Hfirst. cbn [app] in Hfirst.
      rewrite strip_colon_cons in Hfirst.
      change (colon =? colon)%N with true in Hfirst. cbn iota in Hfirst.
      match type of Hfirst with
      | match star_greedy dot ?tl ?K with _ => _ end = _
        => assert (HK : exists y, K q = Some y)
             by (cbn beta; rewrite Hq; eauto);
           destruct HK as (y & HK);
           destruct (star_greedy_complete dot (drop (S j) w ++ d) q K y)
             as (z & Hz); [|exact HK|]
      end.
      * apply Forall_app. split; [|exact Hd].
        apply Forall_drop. exact Hw.
      * rewrite <- app_assoc in Hz. rewrite Hz in Hfirst. discriminate.
    + intros ->. rewrite Forall_lookup in Hw. specialize (Hw _ _ Hj).
      discriminate.
Qed.

Lemma search_capture (line : str) (m : re_match) :
  search explicit_failure_pattern line = Some m ->
  exists before M ws g after,
    group1 m = Some g
    /\ line = before ++ M ++ colon :: ws ++ g ++ after
    /\ In M markers
    /\ Forall (fun c => isspace c = true) ws
    /\ Forall (fun c => c <> colon /\ c <> newline) g.
Proof.
  intros Hs. apply search_inv in Hs as (skipped & t & -> & Hm).
  apply match_here_capture in Hm
    as (before & M & ws & g & after & Hg & -> & HM & Hws & Hgc).
  exists (skipped ++ before), M, ws, g, after.
  split_and!; auto. now rewrite <- app_assoc.
Qed.

End CaptureShape.

(** ** The records of a result *)

Module RecordShapes.
Import PyStr Re ReFacts ReSemantics ReSound UrlShape CaptureShape.
Import Downloader LineByLine ClassifierFacts ExplicitFacts WindowFacts Shapes.

(** [s.strip()] removes white space at both ends and nothing else. *)
Lemma strip_split (s : str) :
  exists a b, s = a ++ strip s ++ b
              /\ Forall (fun c => isspace c = true) a
              /\ Forall (fun c => isspace c = true) b
              /\ no_space_at_ends (strip s).
Proof.
  destruct (lstrip_split s) as (a & Ea & Ha & Hhead).
  destruct (lstrip_split (rev (lstrip s))) as (b' & Eb & Hb & Hlast).
  assert (Et : lstrip s = strip s ++ rev b').
  { unfold strip, rstrip. rewrite <- rev_app_distr, <- Eb.
    now rewrite rev_involutive. }
  exists a, (rev b'). split_and!.
  - now rewrite <- Et.
  - exact Ha.
  - apply List.Forall_rev. exact Hb.
  - split.
    + rewrite Et in Hhead. destruct (strip s); [exact I|exact Hhead].
    + unfold strip, rstrip. rewrite rev_involutive. exact Hlast.
Qed.

Section Shapes.
Context `{UnicodeDB}.

Lemma first_url_Some_inv (ls : list str) (u : str) :
  first_url ls = Some u ->
  exists k l m, ls !! k = Some l
                /\ search youtube_url_pattern l = Some m
                /\ group0 m = u.
Proof.
  induction ls as [|l0 ls IH]; simpl; [discriminate|].
  destruct (search youtube_url_pattern l0) as [m|] eqn:E.
  - intros [= <-]. exists 0, l0, m. auto.
  - intros Hu. destruct (IH Hu) as (k & l & m & Hk & Hm & Hg).
    exists (S k), l, m. auto.
Qed.

(** What the turn of the loop at a line can add: a title of the line, the
    record of a watch link of one of the lines, or the generic record of
    the line. *)
Lemma line_record_shape (output_lines : list str) (i : nat)
    (line r : str) :
  output_lines !! i = Some line ->
  line_record output_lines i line = Some r ->
  title_of line r
  \/ (exists u lj before after,
        In lj output_lines /\ lj = before ++ u ++ after
        /\ watch_link u /\ r = url_record u)
  \/ (contains (py "AudioProviderError:") line = true
      /\ r = generic_record line).
Proof.
  intros Hl. unfold line_record.
  destruct (search explicit_failure_pattern line) as [m|] eqn:Ex.
  - apply search_capture in Ex
      as (before & M & ws & g & after & -> & -> & HM & Hws & Hg).
    destruct (truthy (strip g)) eqn:Ht; [|discriminate].
    intros [= <-]. left.
    destruct (strip_split g) as (a & b & Eg & Ha & Hb & Hends).
    split_and!.
    + destruct (strip g); [discriminate|discriminate].
    + rewrite Eg in Hg. apply Forall_app in Hg as [_ Hg].
      apply Forall_app in Hg as [Hg _]. exact Hg.
    + exact Hends.
    + exists before, M, (ws ++ a), (b ++ after). split_and!.
      * rewrite Eg at 1. now rewrite <- !app_assoc.
      * exact HM.
      * apply Forall_app. auto.
  - fold audio_marker.
    destruct (contains audio_marker line) eqn:Hc; [|discriminate].
    destruct (first_url (window output_lines i)) as [u|] eqn:Eu.
    + intros [= <-]. right. left.
      apply first_url_Some_inv in Eu as (k & lj & m & Hk & Hm & <-).
      apply window_lookup_Some in Hk as [_ Hk].
      apply search_watch_link in Hm as (before & after & E & Hw & _).
      exists (group0 m), lj, before, after. split_and!; auto.
      apply list_elem_of_In. eapply list_elem_of_lookup_2. exact Hk.
    + intros [= <-]. right. right. auto.
Qed.

End Shapes.

(** The three shapes exclude one another: a title has no colon, both other
    records have one, and they differ in their wording. *)
Lemma title_not_url_record (line r u : str) :
  title_of line r -> r <> url_record u.
Proof.
  intros (_ & Hr & _) ->. unfold url_record in Hr.
  apply Forall_app in Hr as [Hr _]. rewrite Forall_lookup in Hr.
  destruct (Hr 31 colon eq_refl) as [Hc _]. now apply Hc.
Qed.

Lemma title_not_generic_record (line r l : str) :
  title_of line r -> r <> generic_record l.
Proof.
  intros (_ & Hr & _) ->. unfold generic_record in Hr.
  apply Forall_app in Hr as [Hr _]. rewrite Forall_lookup in Hr.
  destruct (Hr 57 colon eq_refl) as [Hc _]. now apply Hc.
Qed.

Lemma url_record_not_generic_record (u l : str) :
  url_record u <> generic_record l.
Proof. unfold url_record, generic_record. simpl. discriminate. Qed.

End RecordShapes.

(** ** How results combine *)

Module Combine.
Import PyStr Re ReFacts Downloader LineByLine ClassifierFacts ExplicitFacts.
Import WindowFacts.

(** [needle in s] holds of the texts that hold [needle]. *)
Lemma contains_true (needle s : str) :
  contains needle s = true -> exists a b, s = a ++ needle ++ b.
Proof.
  induction s as [|c s IH]; simpl.
  - destruct (strip_prefix needle []) as [s'|] eqn:E; [|discriminate].
    apply strip_prefix_Some in E. intros _. exists [], s'. exact E.
  - destruct (strip_prefix needle (c :: s)) as [s'|] eqn:E.
    + apply strip_prefix_Some in E. intros _. exists [], s'. exact E.
    + intros Hc. destruct (IH Hc) as (a & b & ->).
      exists (c :: a), b. reflexivity.
Qed.

Section Facts.
Context `{UnicodeDB}.

Lemma window_ext (L L' : list str) (i : nat) :
  (forall k, k < 4 -> L !! (i + k) = L' !! (i + k)) ->
  window L i = window L' i.
Proof.
  intros Hsame. apply list_eq. intros k.
  destruct (Nat.lt_ge_cases k 4) as [Hk|Hk].
  - rewrite !window_lookup by exact Hk. now apply Hsame.
  - unfold window. now rewrite !lookup_take_ge.
Qed.

Lemma window_shift (A B : list str) (i : nat) :
  window (A ++ B) (length A + i) = window B i.
Proof. unfold window. now rewrite drop_app_add. Qed.

Lemma line_record_shift (A B : list str) (i : nat) (line : str) :
  line_record (A ++ B) (length A + i) line = line_record B i line.
Proof. unfold line_record. now rewrite window_shift. Qed.

Lemma size_add_record (o : option str) (fs : gset str) :
  size (add_record o fs) <= S (size fs).
Proof.
  destruct o as [r|]; simpl; [|lia].
  rewrite size_union_alt, size_singleton.
  assert (size (fs ∖ {[r]}) <= size fs); [|lia].
  apply subseteq_size. intros x Hx.
  apply elem_of_difference in Hx as [Hx _]. exact Hx.
Qed.

Lemma size_collect (output_lines : list str) (n : nat) :
  forall i fs, size (collect output_lines i n fs) <= n + size fs.
Proof.
  induction n as [|n IH]; intros i fs; simpl; [lia|].
  destruct (output_lines !! i) as [line|]; [|lia].
  etransitivity; [apply IH|].
  pose proof (size_add_record (line_record output_lines i line) fs). lia.
Qed.

Lemma length_sorted (fs : gset str) : length (sorted fs) = size fs.
Proof.
  unfold sorted. rewrite merge_sort_Permutation. reflexivity.
Qed.

End Facts.
End Combine.

(** ** The URLs of a text *)

Module UrlInputFacts.
Import PyStr Re ReFacts ReSemantics ReSound ExplicitFacts RecordShapes.
Import Shapes UrlInput.

Lemma split_aux_fields (s word : str) :
  split_aux s word = fields isspace s word.
Proof.
  revert word. induction s as [|c s IH]; intros word; simpl; [reflexivity|].
  now rewrite !IH.
Qed.

Lemma fields_ext (p q : char -> bool) (s : str) :
  Forall (fun c => p c = q c) s ->
  forall word, fields p s word = fields q s word.
Proof.
  induction 1 as [|c s Hc _ IH]; intros word; simpl; [reflexivity|].
  now rewrite Hc, !IH.
Qed.

(** The pieces are not empty and hold no separator. *)
Lemma fields_pieces (p : char -> bool) (s : str) :
  forall word,
    Forall (fun c => p c = false) word ->
    Forall (fun u => u <> [] /\ Forall (fun c => p c = false) u)
      (fields p s word).
Proof.
  induction s as [|c s IH]; intros word Hw; simpl.
  - destruct word as [|x word]; constructor; [|constructor].
    split; [|now apply List.Forall_rev].
    intros E. apply (f_equal (@length _)) in E.
    rewrite length_rev in E. discriminate.
  - destruct (p c) eqn:Hc.
    + destruct word as [|x word]; [apply IH; constructor|].
      constructor; [|apply IH; constructor].
      split; [|now apply List.Forall_rev].
      intros E. apply (f_equal (@length _)) in E.
      rewrite length_rev in E. discriminate.
    + apply IH. now constructor.
Qed.

(** The pieces, one after the other, are the text less its separators. *)
Lemma fields_concat (p : char -> bool) (s : str) :
  forall word,
    concat (fields p s word)
    = rev word ++ List.filter (fun c => negb (p c)) s.
Proof.
  induction s as [|c s IH]; intros word; simpl.
  - destruct word; simpl; now rewrite ?app_nil_r.
  - destruct (p c) eqn:Hc; simpl.
    + destruct word as [|x word]; simpl; now rewrite IH.
    + rewrite IH. simpl. now rewrite <- app_assoc.
Qed.

(** A text without white space at its ends is left as it is by [strip]. *)
Lemma lstrip_id (s : str) :
  match s with [] => True | c :: _ => isspace c = false end ->
  lstrip s = s.
Proof. destruct s as [|c s]; simpl; [reflexivity|]. now intros ->. Qed.

Lemma strip_id (s : str) : no_space_at_ends s -> strip s = s.
Proof.
  intros [Hhead Hlast]. unfold strip, rstrip.
  rewrite (lstrip_id s Hhead), (lstrip_id (rev s) Hlast).
  apply rev_involutive.
Qed.

Lemma no_space_inside_no_space_at_ends (u : str) :
  Forall (fun c => isspace c = false) u -> no_space_at_ends u.
Proof.
  intros Hu. split.
  - destruct Hu; [exact I|assumption].
  - apply List.Forall_rev in Hu. destruct Hu; [exact I|assumption].
Qed.

Lemma strip_each_nonempty_id (pieces : list str) :
  Forall (fun u => u <> [] /\ Forall (fun c => isspace c = false) u) pieces ->
  strip_each_nonempty pieces = pieces.
Proof.
  induction 1 as [|u pieces [Hne Hu] _ IH]; simpl; [reflexivity|].
  rewrite (strip_id u (no_space_inside_no_space_at_ends u Hu)), IH.
  destruct u; [congruence|reflexivity].
Qed.

(** What [strip_each_nonempty] keeps. *)
Lemma strip_each_nonempty_In (pieces : list str) (u : str) :
  In u (strip_each_nonempty pieces) <->
  u <> [] /\ exists piece, In piece pieces /\ u = strip piece.
Proof.
  induction pieces as [|x pieces IH]; simpl.
  - split; [tauto|]. intros (_ & ? & [] & _).
  - destruct (truthy (strip x)) eqn:Hx; simpl; rewrite IH; split.
    + intros [<-|(Hne & piece & Hin & ->)].
      * split; [destruct (strip x); discriminate|eauto].
      * split; [exact Hne|eauto].
    + intros (Hne & piece & [<-|Hin] & ->); [now left|right; eauto].
    + intros (Hne & piece & Hin & ->). split; [exact Hne|eauto].
    + intros (Hne & piece & [<-|Hin] & ->); [|split; eauto].
      destruct (strip x); [congruence|discriminate].
Qed.

(** The matches of [[ \n]+], or of any class repeated once or more: the
    longest run of the class at the position. *)
Lemma match_here_plus (p : char -> bool) (s : str) :
  match_here (Set1 p >> Rep Greedy p) s
  = match s with
    | c :: s' =>
        if p c then Some {| group0 := c :: fst (span p s'); group1 := None |}
        else None
    | [] => None
    end.
Proof.
  unfold match_here. cbn [rmatch].
  destruct s as [|c s]; [reflexivity|].
  destruct (p c); [|reflexivity].
  rewrite star_greedy_total by discriminate. do 2 f_equal.
  destruct (span_spec p s) as (E & _ & _).
  destruct (span p s) as [run rest]. simpl in *. subst s.
  apply (take_app_diff (c :: run) rest).
Qed.

(** Less the empty pieces, [re.split] on a repeated class gives the runs of
    characters outside the class. *)
Lemma re_split_aux_fields (p : char -> bool) (s : str) :
  (forall piece,
     strip_each_nonempty (re_split_aux (Set1 p >> Rep Greedy p) s 0 piece)
     = strip_each_nonempty (fields p s piece))
  /\ (forall run rest,
        s = run ++ rest -> Forall (fun c => p c = true) run ->
        strip_each_nonempty
          (re_split_aux (Set1 p >> Rep Greedy p) s (length run) [])
        = strip_each_nonempty (fields p s [])).
Proof.
  induction s as [|c s [IH0 IHrun]].
  - split.
    + intros piece. simpl. destruct piece; reflexivity.
    + intros run rest E _. symmetry in E.
      apply app_eq_nil in E as [-> ->]. reflexivity.
  - assert (H0 : forall piece,
       strip_each_nonempty
         (re_split_aux (Set1 p >> Rep Greedy p) (c :: s) 0 piece)
       = strip_each_nonempty (fields p (c :: s) piece)).
    { intros piece. cbn [re_split_aux fields].
      rewrite match_here_plus. destruct (p c) eqn:Hc.
      - cbn [option_map group0 length].
        destruct (span_spec p s) as (E & Hrun & _).
        pose proof (IHrun _ _ E Hrun) as IH.
        destruct piece as [|x piece].
        + exact IH.
        + cbn [strip_each_nonempty]. now rewrite IH.
      - cbn [option_map]. apply IH0. }
    split; [exact H0|].
    intros run rest E Hrun. destruct run as [|x run].
    + apply H0.
    + injection E as <- E. apply Forall_cons in Hrun as [Hx Hrun].
      cbn [length re_split_aux fields]. rewrite Hx.
      exact (IHrun run rest E Hrun).
Qed.

Lemma re_split_fields (p : char -> bool) (s : str) :
  strip_each_nonempty (re_split (Set1 p >> Rep Greedy p) s)
  = strip_each_nonempty (fields p s []).
Proof. apply re_split_aux_fields. Qed.

Lemma lstrip_all_space (s : str) :
  Forall (fun c => isspace c = true) s -> lstrip s = [].
Proof. induction 1 as [|c s Hc _ IH]; simpl; [reflexivity|]. now rewrite Hc. Qed.

Lemma strip_nil_iff (s : str) :
  strip s = [] <-> Forall (fun c => isspace c = true) s.
Proof.
  split.
  - intros E. destruct (strip_split s) as (a & b & Es & Ha & Hb & _).
    rewrite E in Es. rewrite Es. apply Forall_app. auto.
  - intros Hs. unfold strip. now rewrite (lstrip_all_space s Hs).
Qed.

Lemma strip_each_nonempty_nil (pieces : list str) :
  strip_each_nonempty pieces = [] <->
  Forall (fun c => isspace c = true) (concat pieces).
Proof.
  induction pieces as [|u pieces IH]; simpl.
  - split; [constructor|reflexivity].
  - rewrite Forall_app, <- IH, <- strip_nil_iff.
    destruct (strip u) eqn:E; simpl; [tauto|].
    split; [discriminate|]. intros [? _]. discriminate.
Qed.

Lemma Forall_filter_not (p q : char -> bool) (s : str) :
  (forall c, p c = true -> q c = true) ->
  Forall (fun c => q c = true) (List.filter (fun c => negb (p c)) s)
  <-> Forall (fun c => q c = true) s.
Proof.
  intros Hpq. induction s as [|c s IH]; simpl; [tauto|].
  destruct (p c) eqn:Hc; simpl.
  - rewrite IH. split; [|intros Hs; now apply Forall_cons in Hs as [_ ?]].
    intros Hs. constructor; auto.
  - rewrite !Forall_cons, IH. tauto.
Qed.

Lemma space_or_newline_isspace (c : char) :
  space_or_newline c = true -> isspace c = true.
Proof.
  unfold space_or_newline. intros Hc.
  apply orb_true_iff in Hc as [Hc|Hc]; apply N.eqb_eq in Hc; now subst.
Qed.

(** The desktop front-end finds no URL exactly in the texts of white space
    only. *)
Lemma gui_urls_nil_iff (urls_text : str) :
  snd (_get_urls_from_input urls_text) = []
  <-> Forall (fun c => isspace c = true) urls_text.
Proof.
  unfold _get_urls_from_input.
  destruct urls_text as [|c0 text]; simpl negb; cbn iota; simpl snd.
  { split; auto. }
  unfold url_separator.
  rewrite re_split_fields, strip_each_nonempty_nil, fields_concat.
  simpl rev. cbn [app].
  apply Forall_filter_not. apply space_or_newline_isspace.
Qed.

End UrlInputFacts.

(** ** Which lines the first pattern matches *)

Module ExplicitComplete.
Import PyStr Re ReFacts ReSemantics ReSound CaptureShape.
Import Downloader LineByLine ExplicitFacts Shapes Combine.

Lemma contains_eq (needle s : str) :
  contains needle s
  = match strip_prefix needle s with
    | Some _ => true
    | None => match s with [] => false | _ :: s' => contains needle s' end
    end.
Proof. destruct s; reflexivity. Qed.

Lemma contains_complete (needle a b : str) :
  contains needle (a ++ needle ++ b) = true.
Proof.
  induction a as [|c a IH].
  - simpl app. now rewrite contains_eq, strip_prefix_app.
  - rewrite contains_eq. simpl app.
    destruct (strip_prefix needle (c :: a ++ needle ++ b)); auto.
Qed.

(** The first place of a text where a marker phrase and a colon stand. *)
Lemma first_marker (a s : str) :
  marker_here s = true ->
  exists pre t,
    a ++ s = pre ++ t /\ marker_here t = true
    /\ forall j, j < length pre -> marker_here (drop j (a ++ s)) = false.
Proof.
  intros Hs. induction a as [|c a (pre & t & E & Ht & Hfirst)].
  - exists [], s. split_and!; auto. intros j Hj. simpl in Hj. lia.
  - destruct (marker_here (c :: a ++ s)) eqn:Hc.
    + exists [], (c :: a ++ s). split_and!; auto.
      intros j Hj. simpl in Hj. lia.
    + exists (c :: pre), t. split_and!.
      * simpl. now rewrite E.
      * exact Ht.
      * intros [|j] Hj; [exact Hc|]. simpl. apply Hfirst. simpl in Hj. lia.
Qed.

Lemma marker_here_true (t : str) :
  marker_here t = true ->
  exists M rest, In M markers /\ t = M ++ colon :: rest.
Proof.
  unfold marker_here. intros Ht. apply existsb_exists in Ht as (M & HM & Hp).
  destruct (strip_prefix (M ++ [colon]) t) as [rest|] eqn:E; [|discriminate].
  apply strip_prefix_Some in E. exists M, rest. split; [exact HM|].
  now rewrite E, <- app_assoc.
Qed.

Lemma marker_here_false (t M : str) :
  marker_here t = false -> In M markers ->
  strip_prefix (M ++ [colon]) t = None.
Proof.
  unfold marker_here. intros Ht HM.
  destruct (strip_prefix (M ++ [colon]) t) eqn:E; [|reflexivity].
  assert (existsb (fun M => match strip_prefix (M ++ [colon]) t with
                            | Some _ => true
                            | None => false
                            end) markers = true); [|congruence].
  apply existsb_exists. exists M. split; [exact HM|]. now rewrite E.
Qed.

(** On a line without newline the first pattern matches exactly when a
    marker phrase followed by a colon is in the line. *)
Lemma explicit_search_complete (a M b : str) :
  In M markers ->
  Forall (fun c => c <> newline) (a ++ (M ++ [colon]) ++ b) ->
  exists m, search explicit_failure_pattern (a ++ (M ++ [colon]) ++ b)
            = Some m.
Proof.
  intros HM Hnl.
  assert (Hs : marker_here ((M ++ [colon]) ++ b) = true).
  { unfold marker_here. apply existsb_exists. exists M.
    split; [exact HM|]. now rewrite strip_prefix_app. }
  destruct (first_marker a _ Hs) as (pre & t & E & Ht & Hfirst).
  apply marker_here_true in Ht as (M' & rest & HM' & ->).
  set (notcolon := fun c : N => negb (c =? colon)%N).
  destruct (span_spec notcolon rest) as (Er & Hmid & Htail).
  destruct (span notcolon rest) as [mid tail]. simpl in Er, Hmid, Htail.
  rewrite E in Hnl |- *. rewrite Er in Hnl |- *.
  apply Forall_app in Hnl as [Hpre Hnl].
  apply Forall_app in Hnl as [_ Hnl].
  apply Forall_cons in Hnl as [_ Hnl].
  apply Forall_app in Hnl as [Hmidnl Htailnl].
  destruct (explicit_search pre M' mid tail) as (m & Hm & _).
  - exact HM'.
  - exact Hpre.
  - intros j M'' Hj HM''. apply marker_here_false; [|exact HM''].
    rewrite <- Er, <- E. now apply Hfirst.
  - rewrite Forall_forall in Hmid, Hmidnl |- *. intros c Hc. split.
    + specialize (Hmid c Hc). unfold notcolon in Hmid.
      apply negb_true_iff, N.eqb_neq in Hmid. exact Hmid.
    + now apply Hmidnl.
  - destruct tail as [|c tail]; [now left|right].
    unfold notcolon in Htail. apply negb_false_iff, N.eqb_eq in Htail.
    subst c. exists tail. split; [reflexivity|].
    now apply Forall_cons in Htailnl as [_ ?].
  - eauto.
Qed.

End ExplicitComplete.

(** ** Further properties of the classifier *)

Import ReSemantics ReSound UrlShape CaptureShape RecordShapes Combine Shapes.
Import ExplicitComplete.

Section ClassifierProperties.
Context `{UnicodeDB}.

(** X1. Every record of a result has one of three shapes: a title of one of the
    lines (a non-empty text without colon or newline and without white
    space at its ends, found after a marker phrase, a colon and white
    space), the record of a watch link found in one of the lines, or the
    generic record of a line that holds the audio-provider marker. *)
Theorem records_have_three_shapes (output_lines : list str) :
  exists result,
    parse_failed_downloads output_lines = Return result
    /\ forall r, In r result ->
         (exists line, In line output_lines /\ title_of line r)
         \/ (exists u line before after,
               In line output_lines /\ line = before ++ u ++ after
               /\ watch_link u /\ r = url_record u)
         \/ (exists line,
               In line output_lines
               /\ contains (py "AudioProviderError:") line = true
               /\ r = generic_record line).
Proof.
  destruct (parse_failed_downloads_In output_lines) as (result & Hp & Hin).
  exists result. split; [exact Hp|]. intros r Hr.
  apply Hin in Hr as (j & line & Hl & Hrec).
  assert (Hline : In line output_lines).
  { apply list_elem_of_In. eapply list_elem_of_lookup_2. exact Hl. }
  destruct (line_record_shape _ _ _ _ Hl Hrec)
    as [Ht|[(u & lj & b & a & ? & ? & ? & ?)|[Hc ->]]].
  - left. eauto.
  - right. left. exists u, lj, b, a. auto.
  - right. right. eauto.
Qed.

(** X2. The three shapes exclude one another, so a record tells which branch of
    the loop made it: a title is never the record of a link nor a generic
    record, and no record of a link is a generic record. *)
Theorem record_shapes_are_exclusive :
  (forall line r u, title_of line r -> r <> url_record u)
  /\ (forall line r l, title_of line r -> r <> generic_record l)
  /\ (forall u l, url_record u <> generic_record l).
Proof.
  split_and!.
  - apply title_not_url_record.
  - apply title_not_generic_record.
  - apply url_record_not_generic_record.
Qed.

(** X3. A link found by the second pattern has the shape of a watch link, lies
    in the line, and is not cut short: the character after it, if any, is
    not a letter, digit, underscore or hyphen. *)
Theorem found_link_is_whole (line : str) (m : re_match) :
  search youtube_url_pattern line = Some m ->
  exists before after,
    line = before ++ group0 m ++ after
    /\ watch_link (group0 m)
    /\ match after with
       | [] => True
       | c :: _ => word_or_hyphen c = false
       end.
Proof.
  intros Hs. apply search_inv in Hs as (before & t & -> & Hm).
  apply match_here_watch_link in Hm as (after & Et & Hshape & Hafter).
  exists before, after. split_and!; [|exact Hshape|exact Hafter].
  now rewrite <- Et.
Qed.

(** X4. A result has at most one record per line. *)
Theorem at_most_one_record_per_line (output_lines : list str) :
  exists result,
    parse_failed_downloads output_lines = Return result
    /\ length result <= length output_lines.
Proof.
  exists (sorted (records output_lines)). split.
  - apply parse_failed_downloads_spec.
  - rewrite length_sorted. unfold records.
    pose proof (size_collect output_lines (length output_lines) 0 ∅) as Hs.
    rewrite size_empty in Hs. lia.
Qed.

(** X5. The turn of the loop at line [i] reads nothing but the lines [i] to
    [i + 3]: on two lists that agree there it does the same, whatever the
    lines before and further on. *)
Theorem loop_body_reads_four_lines (lines1 lines2 : list str) (i : nat)
    (fs : gset str) :
  (forall k, k < 4 -> lines1 !! (i + k) = lines2 !! (i + k)) ->
  loop_body lines1 (i, fs) = loop_body lines2 (i, fs).
Proof.
  intros Hsame. pose proof (Hsame 0 ltac:(lia)) as H0.
  rewrite Nat.add_0_r in H0.
  destruct (lines1 !! i) as [line|] eqn:E1.
  - rewrite (loop_body_spec _ _ _ _ E1).
    rewrite (loop_body_spec _ _ _ line) by (now rewrite <- H0).
    unfold line_record. now rewrite (window_ext lines1 lines2 i Hsame).
  - unfold loop_body, index. now rewrite E1, <- H0.
Qed.

(** X6. A line without a colon adds no record, and a list of such lines gives
    the empty result. *)
Theorem no_colon_no_record :
  (forall (output_lines : list str) (i : nat) (line : str) (fs : gset str),
     output_lines !! i = Some line ->
     ~ In colon line ->
     loop_body output_lines (i, fs) = Return (i + 1, fs))
  /\ (forall output_lines : list str,
        (forall line, In line output_lines -> ~ In colon line) ->
        parse_failed_downloads output_lines = Return []).
Proof.
  assert (Hnone : forall L i line, ~ In colon line ->
                    line_record L i line = None).
  { intros L i line Hno. unfold line_record.
    destruct (search explicit_failure_pattern line) as [m|] eqn:Ex.
    - apply search_capture in Ex as (b & M & ws & g & a & _ & -> & _).
      destruct Hno. rewrite !in_app_iff. right. right. now left.
    - fold audio_marker.
      destruct (contains audio_marker line) eqn:Hc; [|reflexivity].
      apply contains_true in Hc as (a & b & ->).
      destruct Hno. rewrite !in_app_iff. right. left.
      apply list_elem_of_In. apply (list_elem_of_lookup_2 _ 18). reflexivity. }
  split.
  - intros L i line fs Hl Hno.
    rewrite (loop_body_spec _ _ _ _ Hl), (Hnone _ _ _ Hno). reflexivity.
  - intros L Hall.
    destruct (parse_failed_downloads_In L) as (result & Hp & Hin).
    rewrite Hp. f_equal. destruct result as [|r result]; [reflexivity|].
    destruct (proj1 (Hin r) (or_introl eq_refl)) as (j & line & Hl & Hrec).
    rewrite Hnone in Hrec; [discriminate|]. apply Hall.
    apply list_elem_of_In. eapply list_elem_of_lookup_2. exact Hl.
Qed.

(** X7. The result of two logs one after the other holds the records of the
    first and those of the second, provided every line of the first that
    takes the audio-provider branch has three more lines after it in the
    first log or a watch link within its window there. *)
Theorem records_of_concatenation (A B : list str) :
  (forall i line,
     A !! i = Some line ->
     search explicit_failure_pattern line = None ->
     contains (py "AudioProviderError:") line = true ->
     i + 4 <= length A
     \/ exists j lj m, i <= j < i + 4 /\ A !! j = Some lj
                       /\ search youtube_url_pattern lj = Some m) ->
  exists result_A result_B result,
    parse_failed_downloads A = Return result_A
    /\ parse_failed_downloads B = Return result_B
    /\ parse_failed_downloads (A ++ B) = Return result
    /\ forall r, In r result <-> In r result_A \/ In r result_B.
Proof.
  intros Hwin.
  destruct (parse_failed_downloads_In A) as (ra & HA & HinA).
  destruct (parse_failed_downloads_In B) as (rb & HB & HinB).
  destruct (parse_failed_downloads_In (A ++ B)) as (rab & HAB & HinAB).
  exists ra, rb, rab. split_and!; [exact HA|exact HB|exact HAB|].
  assert (Hkeep : forall j line, A !! j = Some line ->
            line_record (A ++ B) j line = line_record A j line).
  { intros j line Hl. apply line_record_app. intros Hex Hmark.
    destruct (Hwin j line Hl Hex Hmark) as [?|(j' & lj & m & Hj' & Hlj & Hm)];
      [now left|right].
    eapply first_url_window_found; eassumption. }
  intros r. rewrite HinAB, HinA, HinB. split.
  - intros (j & line & Hl & Hrec).
    apply lookup_app_Some in Hl as [Hl|[Hge Hl]].
    + left. exists j, line. split; [exact Hl|].
      now rewrite <- (Hkeep _ _ Hl).
    + right. exists (j - length A), line. split; [exact Hl|].
      rewrite <- (line_record_shift A B). 
      now replace (length A + (j - length A)) with j by lia.
  - intros [(j & line & Hl & Hrec)|(j & line & Hl & Hrec)].
    + exists j, line. split; [now apply lookup_app_l_Some|].
      now rewrite (Hkeep _ _ Hl).
    + exists (length A + j), line. split.
      * rewrite lookup_app_r by lia.
        now replace (length A + j - length A) with j by lia.
      * now rewrite line_record_shift.
Qed.

(** X8. On a line without newline, as the lines [run_command] collects are,
    the first pattern matches exactly when the line holds one of its marker
    phrases followed by a colon: [Failed to download:], [Track found but
    download failed:], or [Could not find a match for::] with its two
    colons. *)
Theorem explicit_match_iff_marker_and_colon (line : str) :
  Forall (fun c => c <> newline) line ->
  search explicit_failure_pattern line <> None
  <-> exists M, In M markers /\ contains (M ++ [colon]) line = true.
Proof.
  intros Hnl. split.
  - intros Hs.
    destruct (search explicit_failure_pattern line) as [m|] eqn:E;
      [|congruence].
    apply search_capture
      in E as (before & M & ws & g & after & _ & -> & HM & _).
    exists M. split; [exact HM|].
    replace (before ++ M ++ colon :: ws ++ g ++ after)
      with (before ++ (M ++ [colon]) ++ (ws ++ g ++ after))
      by (now rewrite <- !app_assoc).
    apply contains_complete.
  - intros (M & HM & Hc). apply contains_true in Hc as (a & b & ->).
    destruct (ExplicitComplete.explicit_search_complete a M b HM Hnl)
      as (m & ->).
    discriminate.
Qed.

End ClassifierProperties.

(** ** Properties of the URL lists *)

Import UrlInput UrlInputFacts.

(** X9. The URLs the terminal front-end takes from a text are the runs of
    characters that are not white space: after [split()] the [strip()] and
    the test of the comprehension change nothing. No URL is empty or holds
    white space, the URLs one after the other are the text less its white
    space, and the list is empty, so that the operation is aborted, exactly
    when the text is white space only. *)
Theorem urls_of_input_are_the_words (urls_str : str) :
  urls_of_input urls_str = split urls_str
  /\ Forall (fun u => u <> [] /\ Forall (fun c => isspace c = false) u)
       (urls_of_input urls_str)
  /\ concat (urls_of_input urls_str)
     = List.filter (fun c => negb (isspace c)) urls_str
  /\ (urls_of_input urls_str = []
      <-> Forall (fun c => isspace c = true) urls_str).
Proof.
  assert (Hp : Forall (fun u => u <> []
                         /\ Forall (fun c => isspace c = false) u)
                 (split urls_str)).
  { unfold split. rewrite split_aux_fields. apply fields_pieces.
    constructor. }
  assert (E : urls_of_input urls_str = split urls_str).
  { unfold urls_of_input. now apply strip_each_nonempty_id. }
  assert (Hc : concat (split urls_str)
               = List.filter (fun c => negb (isspace c)) urls_str).
  { unfold split. rewrite split_aux_fields. apply fields_concat. }
  split_and!.
  - exact E.
  - now rewrite E.
  - now rewrite E.
  - unfold urls_of_input. rewrite strip_each_nonempty_nil, Hc.
    apply Forall_filter_not. auto.
Qed.

(** X10. The URLs the desktop front-end takes from the URL field: none is empty,
    none holds a space or a newline, none has white space at its ends. The
    list is empty exactly when the text is white space only, and the error
    message is logged for the empty text alone: a text of blanks gives the
    empty list without a message. *)
Theorem gui_urls_shape (urls_text : str) :
  Forall (fun u => u <> []
                   /\ Forall (fun c => space_or_newline c = false) u
                   /\ no_space_at_ends u)
    (snd (_get_urls_from_input urls_text))
  /\ (snd (_get_urls_from_input urls_text) = []
      <-> Forall (fun c => isspace c = true) urls_text)
  /\ fst (_get_urls_from_input urls_text)
     = match urls_text with
       | [] => [py "Error: No Spotify URLs provided."]
       | _ :: _ => []
       end.
Proof.
  split_and!.
  - unfold _get_urls_from_input.
    destruct urls_text as [|c0 text]; simpl negb; cbn iota; simpl snd;
      [constructor|].
    set (s := c0 :: text). unfold url_separator. rewrite re_split_fields.
    apply Forall_forall. intros u Hu. apply list_elem_of_In in Hu.
    apply strip_each_nonempty_In in Hu as (Hne & piece & Hin & ->).
    pose proof (fields_pieces space_or_newline s [] (List.Forall_nil _)) as Hp.
    rewrite Forall_forall in Hp.
    destruct (Hp piece (proj2 (list_elem_of_In _ _) Hin)) as [_ Hpiece].
    destruct (strip_split piece) as (a & b & Ep & _ & _ & Hends).
    split_and!; [exact Hne| |exact Hends].
    rewrite Ep in Hpiece. apply Forall_app in Hpiece as [_ Hpiece].
    now apply Forall_app in Hpiece as [Hpiece _].
  - apply gui_urls_nil_iff.
  - destruct urls_text; reflexivity.
Qed.

(** X11. On a text whose only white space is spaces and newlines the two
    front-ends take the same URLs. They differ on other white space: a tab
    between two URLs separates them in the terminal front-end and joins
    them into one argument in the desktop front-end. *)
Theorem front_ends_take_the_same_urls :
  (forall urls_text : str,
     Forall (fun c => isspace c = true -> space_or_newline c = true)
       urls_text ->
     snd (_get_urls_from_input urls_text) = urls_of_input urls_text)
  /\ urls_of_input [97; 9; 98]%N = [[97]; [98]]%N
  /\ snd (_get_urls_from_input [97; 9; 98]%N) = [[97; 9; 98]]%N.
Proof.
  split_and!; [|reflexivity|reflexivity].
  intros text Htext. unfold _get_urls_from_input, urls_of_input, split.
  destruct text as [|c0 text]; [reflexivity|].
  simpl negb. cbn iota. simpl snd. unfold url_separator.
  rewrite re_split_fields, split_aux_fields. f_equal.
  apply fields_ext. eapply Forall_impl; [exact Htext|].
  intros c Hc. cbv beta in Hc.
  destruct (isspace c) eqn:Hs.
  - now apply Hc.
  - destruct (space_or_newline c) eqn:Hn; [|reflexivity].
    apply space_or_newline_isspace in Hn. congruence.
Qed.

(** ** The prompts of the terminal front-end *)

Module ConsoleFacts.
Import PyStr Console.

Lemma str_of_int_nonempty (n : Z) : str_of_int n <> [].
Proof.
  unfold str_of_int.
  destruct (Z.to_int n) as [d|d]; simpl; [|discriminate].
  destruct d; discriminate.
Qed.

Lemma stdin_print (s : str) (w : world) : stdin (print s w) = stdin w.
Proof. reflexivity. Qed.

Lemma stdin_print_options (options : list str) :
  forall i w, stdin (print_options i options w) = stdin w.
Proof.
  induction options as [|o options IH]; intros i w; simpl; [reflexivity|].
  now rewrite IH.
Qed.

(** [get_user_input] reads one line, or fails at the end of the input. *)
Lemma get_user_input_inv (prompt : str) (default : option str) (w : world) :
  match get_user_input prompt default w with
  | Done v w' =>
      exists line,
        stdin w = line :: stdin w'
        /\ v = match default with
               | Some d => if truthy (strip line) then strip line else d
               | None => strip line
               end
  | Fails e w' => e = EOFError /\ stdin w = []
  | NoFuel => False
  end.
Proof.
  unfold get_user_input, input.
  destruct default as [d|]; destruct (stdin w) as [|line rest]; simpl; eauto.
Qed.

End ConsoleFacts.

(** ** Properties of the prompts *)

Import Console ConsoleFacts.

Section Prompts.
Context `{PyInt}.

(** X12. [get_user_choice] returns nothing but one of the options, never fails
    on an index, and leaves its loop within one turn per line of input:
    with more fuel than lines left it returns or meets the end of the
    input. *)
Theorem get_user_choice_returns_an_option (fuel : nat) (prompt : str)
    (options : list str) (w : world) :
  match get_user_choice fuel prompt options w with
  | Done v w' => In v options /\ length (stdin w') < length (stdin w)
  | Fails e _ => e = EOFError
  | NoFuel => fuel <= length (stdin w)
  end.
Proof.
  revert w. induction fuel as [|fuel IH]; intros w; [simpl; lia|].
  cbn [get_user_choice].
  set (w2 := print_options 0 options (print ([10%N] ++ prompt) w)).
  assert (E2 : stdin w2 = stdin w)
    by (unfold w2; now rewrite stdin_print_options, stdin_print).
  pose proof (get_user_input_inv (py "Enter your choice (number)") None w2)
    as Hin.
  destruct (get_user_input (py "Enter your choice (number)") None w2)
    as [choice_str w3|e w3|]; cbn [and_then].
  - destruct Hin as (line & Hline & _). rewrite E2 in Hline.
    assert (Hlen : length (stdin w) = S (length (stdin w3)))
      by (now rewrite Hline).
    destruct (int_of_str choice_str) as [n|].
    + destruct ((0 <=? n - 1)%Z && (n - 1 <? Z.of_nat (length options))%Z)
        eqn:Hrange.
      * apply andb_true_iff in Hrange as [H0 H1].
        apply Z.leb_le in H0. apply Z.ltb_lt in H1.
        destruct (lookup_lt_is_Some_2 options (Z.to_nat (n - 1)))
          as [o Ho]; [lia|].
        rewrite Ho. split; [|lia].
        apply list_elem_of_In. eapply list_elem_of_lookup_2. exact Ho.
      * match goal with
        | |- context [get_user_choice fuel prompt options ?w'] =>
            specialize (IH w'); rewrite stdin_print in IH;
            destruct (get_user_choice fuel prompt options w')
        end; [destruct IH; split; [assumption|lia]|exact IH|lia].
    + match goal with
      | |- context [get_user_choice fuel prompt options ?w'] =>
          specialize (IH w'); rewrite stdin_print in IH;
          destruct (get_user_choice fuel prompt options w')
      end; [destruct IH; split; [assumption|lia]|exact IH|lia].
  - tauto.
  - destruct Hin.
Qed.

(** X13. Lines that [int] refuses or reads as a number outside the list are
    passed over: the choice is the option numbered by the first line read
    as a number of the list, and the input after that line is left. *)
Theorem get_user_choice_first_valid_line (prompt : str)
    (options : list str) (refused : list str) (line : str)
    (rest : list str) (n : Z) (option : str) :
  Forall (fun l => match int_of_str (strip l) with
                   | Some k => (k < 1 \/ Z.of_nat (length options) < k)%Z
                   | None => True
                   end) refused ->
  int_of_str (strip line) = Some n ->
  (1 <= n)%Z ->
  options !! Z.to_nat (n - 1) = Some option ->
  forall fuel out,
    length refused < fuel ->
    exists out',
      get_user_choice fuel prompt options
        {| stdin := refused ++ line :: rest; stdout := out |}
      = Done option {| stdin := rest; stdout := out' |}.
Proof.
  intros Hrefused Hline Hn Hopt.
  assert (Hlt : (n - 1 < Z.of_nat (length options))%Z).
  { apply lookup_lt_Some in Hopt. lia. }
  induction Hrefused as [|l refused Hl _ IH]; intros fuel out Hfuel.
  - destruct fuel as [|fuel]; [simpl in Hfuel; lia|].
    cbn [get_user_choice].
    set (w2 := print_options 0 options _).
    assert (E2 : stdin w2 = line :: rest)
      by (unfold w2; now rewrite stdin_print_options, stdin_print).
    unfold get_user_input, input. rewrite E2. cbn [and_then].
    rewrite Hline.
    replace ((0 <=? n - 1)%Z && (n - 1 <? Z.of_nat (length options))%Z)
      with true
      by (symmetry; apply andb_true_iff; split;
          [apply Z.leb_le|apply Z.ltb_lt]; lia).
    rewrite Hopt. eauto.
  - destruct fuel as [|fuel]; [simpl in Hfuel; lia|].
    cbn [get_user_choice].
    set (w2 := print_options 0 options _).
    assert (E2 : stdin w2 = l :: refused ++ line :: rest)
      by (unfold w2; now rewrite stdin_print_options, stdin_print).
    unfold get_user_input, input. rewrite E2. cbn [and_then].
    destruct (int_of_str (strip l)) as [k|].
    + replace ((0 <=? k - 1)%Z && (k - 1 <? Z.of_nat (length options))%Z)
        with false.
      * apply IH. simpl in Hfuel. lia.
      * symmetry. apply andb_false_iff.
        destruct Hl; [left; apply Z.leb_gt|right; apply Z.ltb_ge]; lia.
    + apply IH. simpl in Hfuel. lia.
Qed.

(** X14. A number returned by [get_numeric_input] is never below [min_value],
    the default included: with a default the text read is never empty, so
    the statement [return default] is never reached and the default is
    checked like a typed number. [None] is returned only without a default.
    The loop is left within one turn per line of input. *)
Theorem get_numeric_input_respects_minimum (fuel : nat) (prompt : str)
    (default : option Z) (min_value : Z) (w : world) :
  match get_numeric_input fuel prompt default min_value w with
  | Done (Some value) w' =>
      (min_value <= value)%Z /\ length (stdin w') < length (stdin w)
  | Done None w' => default = None /\ length (stdin w') < length (stdin w)
  | Fails e _ => e = EOFError
  | NoFuel => fuel <= length (stdin w)
  end.
Proof.
  revert w. induction fuel as [|fuel IH]; intros w; [simpl; lia|].
  cbn [get_numeric_input].
  set (default_str := match default with
                      | Some d => str_of_int d
                      | None => []
                      end).
  pose proof (get_user_input_inv prompt (Some default_str) w) as Hin.
  destruct (get_user_input prompt (Some default_str) w)
    as [user_input w1|e w1|]; cbn [and_then]; [|tauto|destruct Hin].
  destruct Hin as (line & Hline & Hv).
  assert (Hlen : length (stdin w) = S (length (stdin w1)))
    by (now rewrite Hline).
  destruct (truthy user_input) eqn:Ht.
  - destruct (int_of_str user_input) as [value|].
    + destruct (min_value <=? value)%Z eqn:Hmin.
      * apply Z.leb_le in Hmin. split; [exact Hmin|lia].
      * match goal with
        | |- context [get_numeric_input fuel prompt default min_value ?w']
          => specialize (IH w'); rewrite stdin_print in IH;
             destruct (get_numeric_input fuel prompt default min_value w')
               as [[v|] ?| |]
        end; [destruct IH; split; [assumption|lia]
             |destruct IH; split; [assumption|lia]|exact IH|lia].
    + match goal with
      | |- context [get_numeric_input fuel prompt default min_value ?w']
        => specialize (IH w'); rewrite stdin_print in IH;
           destruct (get_numeric_input fuel prompt default min_value w')
             as [[v|] ?| |]
      end; [destruct IH; split; [assumption|lia]
           |destruct IH; split; [assumption|lia]|exact IH|lia].
  - destruct default as [d|]; [|split; [reflexivity|lia]].
    exfalso. subst user_input default_str.
    destruct (truthy (strip line)) eqn:Hs; [congruence|].
    pose proof (str_of_int_nonempty d).
    destruct (str_of_int d); [congruence|discriminate].
Qed.

(** X15. The empty answer with a default [d] that [int] reads back from its
    writing: the default is returned when it is not below [min_value], and
    otherwise it is refused with the message of the numbers too small, and
    the prompt is made again. *)
Theorem get_numeric_input_empty_answer (fuel : nat) (prompt : str)
    (d min_value : Z) (line : str) (rest out : list str) :
  strip line = [] ->
  int_of_str (str_of_int d) = Some d ->
  exists out',
    ((min_value <= d)%Z ->
     get_numeric_input (S fuel) prompt (Some d) min_value
       {| stdin := line :: rest; stdout := out |}
     = Done (Some d) {| stdin := rest; stdout := out' |})
    /\ ((d < min_value)%Z ->
        get_numeric_input (S fuel) prompt (Some d) min_value
          {| stdin := line :: rest; stdout := out |}
        = get_numeric_input fuel prompt (Some d) min_value
            (print (py "Please enter a number greater than or equal to "
                    ++ str_of_int min_value ++ py ".")
               {| stdin := rest; stdout := out' |})).
Proof.
  intros Hblank Hround.
  exists (out ++ [prompt ++ py " (default: " ++ str_of_int d ++ py "): "]).
  cbn [get_numeric_input]. unfold get_user_input, input. cbn [stdin stdout].
  cbn [and_then]. rewrite Hblank. cbn [truthy].
  assert (Ht : truthy (str_of_int d) = true).
  { pose proof (str_of_int_nonempty d) as Hne.
    destruct (str_of_int d); [congruence|reflexivity]. }
  rewrite Ht, Hround. split; intros Hd.
  - apply Z.leb_le in Hd. rewrite Hd. reflexivity.
  - apply Z.leb_gt in Hd. rewrite Hd. reflexivity.
Qed.

End Prompts.

(** ** The actions of the desktop front-end *)

Module GuiActionsFacts.
Import PyStr UrlInput UrlInputFacts RecordShapes Shapes ReFacts GuiActions.

Lemma strip_prefix_refl_app (p s : str) : strip_prefix p (p ++ s) = Some s.
Proof. now apply strip_prefix_Some. Qed.

Lemma endswith_app (s suffix : str) : endswith (s ++ suffix) suffix = true.
Proof.
  unfold endswith. now rewrite rev_app_distr, strip_prefix_refl_app.
Qed.

(** What [get_urls] leaves of the application: all but the console. *)
Lemma get_urls_spec (a : app) :
  fst (get_urls a) = snd (_get_urls_from_input (urls_var a))
  /\ urls_var (snd (get_urls a)) = urls_var a
  /\ save_file_var (snd (get_urls a)) = save_file_var a
  /\ advanced_args_var (snd (get_urls a)) = advanced_args_var a
  /\ commands (snd (get_urls a)) = commands a.
Proof.
  unfold get_urls, _get_urls_from_input.
  destruct (negb (truthy (urls_var a))); simpl; auto.
Qed.

Section Facts.
Context `{Shlex}.

Lemma _get_advanced_args_spec (a : app) :
  fst (_get_advanced_args a) = advanced_of a
  /\ urls_var (snd (_get_advanced_args a)) = urls_var a
  /\ save_file_var (snd (_get_advanced_args a)) = save_file_var a
  /\ advanced_args_var (snd (_get_advanced_args a)) = advanced_args_var a
  /\ commands (snd (_get_advanced_args a)) = commands a.
Proof.
  unfold _get_advanced_args, advanced_of.
  destruct (strip (advanced_args_var a)) as [|c s]; simpl; auto.
  destruct (shlex_split (c :: s)); simpl; auto.
Qed.

(** [_save_metadata], with its intermediate values named. *)
Lemma _save_metadata_unfold (a : app) :
  let urls := snd (_get_urls_from_input (urls_var a)) in
  let typed := strip (save_file_var a) in
  let save_file :=
    if endswith typed (py ".spotdl") then typed
    else typed ++ py ".spotdl" in
  let a' := _save_metadata a in
  urls_var a' = urls_var a
  /\ advanced_args_var a' = advanced_args_var a
  /\ match urls, typed with
     | _ :: _, _ :: _ =>
         commands a'
         = commands a
           ++ [([py "spotdl"; py "save"] ++ urls
                ++ [py "--save-file"; save_file] ++ advanced_of a,
                py "Save Metadata")]
         /\ save_file_var a'
            = (if endswith typed (py ".spotdl") then save_file_var a
               else save_file)
     | _, _ => commands a' = commands a /\ save_file_var a' = save_file_var a
     end.
Proof.
  cbv zeta. unfold _save_metadata.
  destruct (get_urls_spec a) as (Eu & E1 & E2 & E3 & E4).
  destruct (get_urls a) as [urls a1]. simpl in Eu, E1, E2, E3, E4.
  rewrite <- Eu. destruct urls as [|u urls]; simpl negb; cbn iota.
  { auto. }
  rewrite E2.
  destruct (strip (save_file_var a)) as [|c typed] eqn:Et; simpl negb;
    cbn iota.
  { simpl. auto. }
  destruct (endswith (c :: typed) (py ".spotdl")) eqn:Ee; simpl negb;
    cbn iota.
  - destruct (_get_advanced_args_spec a1) as (Ea & F1 & F2 & F3 & F4).
    destruct (_get_advanced_args a1) as [adv a2].
    simpl in Ea, F1, F2, F3, F4. simpl.
    rewrite F1, F2, F3, F4, E1, E2, E3, E4, Ea.
    unfold advanced_of. rewrite E3. rewrite <- !app_assoc. auto.
  - match goal with
    | |- context [_get_advanced_args ?x] =>
        destruct (_get_advanced_args_spec x) as (Ea & F1 & F2 & F3 & F4);
        destruct (_get_advanced_args x) as [adv a2]
    end.
    simpl in Ea, F1, F2, F3, F4. simpl.
    rewrite F1, F2, F3, F4, E1, E3, E4, Ea.
    unfold advanced_of. simpl. rewrite E3. rewrite <- !app_assoc. auto.
Qed.

(** The command of [_save_metadata] and the field after it. *)
Lemma _save_metadata_spec (a : app) :
  let urls := snd (_get_urls_from_input (urls_var a)) in
  let typed := strip (save_file_var a) in
  let save_file :=
    if endswith typed (py ".spotdl") then typed
    else typed ++ py ".spotdl" in
  match urls, typed with
  | _ :: _, _ :: _ =>
      commands (_save_metadata a)
      = commands a
        ++ [([py "spotdl"; py "save"] ++ urls
             ++ [py "--save-file"; save_file] ++ advanced_of a,
             py "Save Metadata")]
      /\ endswith save_file (py ".spotdl") = true
      /\ strip (save_file_var (_save_metadata a)) = save_file
  | _, _ => commands (_save_metadata a) = commands a
  end.
Proof.
  cbv zeta. destruct (_save_metadata_unfold a) as (_ & _ & Hc).
  cbv zeta in Hc.
  destruct (snd (_get_urls_from_input (urls_var a))) as [|u urls];
    [tauto|].
  destruct (strip (save_file_var a)) as [|c typed] eqn:Et; [tauto|].
  destruct Hc as [Hc Hvar]. split; [exact Hc|].
  destruct (endswith (c :: typed) (py ".spotdl")) eqn:Ee.
  - split; [exact Ee|]. now rewrite Hvar.
  - split; [apply endswith_app|]. rewrite Hvar. apply strip_id.
    destruct (strip_split (save_file_var a))
      as (a0 & b0 & _ & _ & _ & Hends).
    rewrite Et in Hends. destruct Hends as [Hhead _]. split.
    + exact Hhead.
    + rewrite rev_app_distr. reflexivity.
Qed.

End Facts.
End GuiActionsFacts.

(** ** Properties of the actions *)

Import GuiActions GuiActionsFacts.

Section Actions.
Context `{Shlex}.

(** X16. [_save_metadata] hands over a command exactly when the URL field gives
    a URL and the save-file field is not blank. The command is [spotdl
    save], the URLs, [--save-file] with the trimmed field, to which
    [.spotdl] is added unless it ends so already, and the advanced
    arguments. The argument of [--save-file] always ends in [.spotdl], and
    the field, trimmed, then reads as that argument. *)
Theorem save_metadata_command (a : app) :
  let urls := snd (_get_urls_from_input (urls_var a)) in
  let typed := strip (save_file_var a) in
  let save_file :=
    if endswith typed (py ".spotdl") then typed
    else typed ++ py ".spotdl" in
  match urls, typed with
  | _ :: _, _ :: _ =>
      commands (_save_metadata a)
      = commands a
        ++ [([py "spotdl"; py "save"] ++ urls
             ++ [py "--save-file"; save_file] ++ advanced_of a,
             py "Save Metadata")]
      /\ endswith save_file (py ".spotdl") = true
      /\ strip (save_file_var (_save_metadata a)) = save_file
  | _, _ => commands (_save_metadata a) = commands a
  end.
Proof.
  cbv zeta. destruct (_save_metadata_unfold a) as (_ & _ & Hc).
  cbv zeta in Hc.
  destruct (snd (_get_urls_from_input (urls_var a))) as [|u urls];
    [tauto|].
  destruct (strip (save_file_var a)) as [|c typed] eqn:Et; [tauto|].
  destruct Hc as [Hc Hvar]. split; [exact Hc|].
  destruct (endswith (c :: typed) (py ".spotdl")) eqn:Ee.
  - split; [exact Ee|]. now rewrite Hvar.
  - split; [apply endswith_app|]. rewrite Hvar. apply strip_id.
    destruct (strip_split (save_file_var a))
      as (a0 & b0 & _ & _ & _ & Hends).
    rewrite Et in Hends. destruct Hends as [Hhead _]. split.
    + exact Hhead.
    + rewrite rev_app_distr. reflexivity.
Qed.

(** X17. Doing [_save_metadata] again hands over the same command again: the
    ending [.spotdl] is not added a second time. *)
Theorem save_metadata_again (a : app) (c : list str * str) :
  commands (_save_metadata a) = commands a ++ [c] ->
  commands (_save_metadata (_save_metadata a)) = commands a ++ [c; c].
Proof.
  intros Hc.
  destruct (_save_metadata_unfold a) as (Eu & Ea & H1). cbv zeta in H1.
  pose proof (_save_metadata_spec a) as H2. cbv zeta in H2.
  pose proof (_save_metadata_spec (_save_metadata a)) as H3.
  cbv zeta in H3. rewrite Eu in H3.
  assert (Hadv : advanced_of (_save_metadata a) = advanced_of a)
    by (unfold advanced_of; now rewrite Ea).
  destruct (snd (_get_urls_from_input (urls_var a))) as [|u urls].
  { rewrite H2 in Hc. rewrite <- (app_nil_r (commands a)) in Hc at 1.
    apply app_inv_head in Hc. discriminate. }
  destruct (strip (save_file_var a)) as [|x typed] eqn:Et.
  { rewrite H2 in Hc. rewrite <- (app_nil_r (commands a)) in Hc at 1.
    apply app_inv_head in Hc. discriminate. }
  destruct H2 as (Hcmd & Hends & Hvar).
  rewrite Hcmd in Hc. apply app_inv_head in Hc. injection Hc as <-.
  rewrite Hvar, Hadv in H3.
  destruct (endswith (x :: typed) (py ".spotdl")) eqn:Ee.
  - rewrite Ee in H3. destruct H3 as (H3 & _). rewrite H3, Hcmd.
    now rewrite <- app_assoc.
  - change ((x :: typed) ++ py ".spotdl")
      with (x :: (typed ++ py ".spotdl")) in *.
    rewrite Hends in H3. destruct H3 as (H3 & _). rewrite H3, Hcmd.
    now rewrite <- app_assoc.
Qed.

(** X18. [_get_direct_urls] hands over nothing when the URL field is white space
    only, and otherwise the command [spotdl url], the URLs of the field and
    the advanced arguments, which are none when their quoting is wrong:
    that error does not stop the command. *)
Theorem get_direct_urls_command (a : app) :
  (Forall (fun c => isspace c = true) (urls_var a) ->
   commands (_get_direct_urls a) = commands a)
  /\ (~ Forall (fun c => isspace c = true) (urls_var a) ->
      snd (_get_urls_from_input (urls_var a)) <> []
      /\ commands (_get_direct_urls a)
         = commands a
           ++ [([py "spotdl"; py "url"]
                ++ snd (_get_urls_from_input (urls_var a))
                ++ advanced_of a,
                py "Get Direct URLs")]).
Proof.
  pose proof (gui_urls_nil_iff (urls_var a)) as Hnil.
  assert (Hcmd : commands (_get_direct_urls a)
                 = match snd (_get_urls_from_input (urls_var a)) with
                   | [] => commands a
                   | _ :: _ =>
                       commands a
                       ++ [([py "spotdl"; py "url"]
                            ++ snd (_get_urls_from_input (urls_var a))
                            ++ advanced_of a,
                            py "Get Direct URLs")]
                   end).
  { unfold _get_direct_urls.
    destruct (get_urls_spec a) as (Eu & E1 & E2 & E3 & E4).
    destruct (get_urls a) as [urls a1]. simpl in Eu, E1, E2, E3, E4.
    rewrite <- Eu. destruct urls as [|u urls]; simpl negb; cbn iota.
    - exact E4.
    - destruct (_get_advanced_args_spec a1) as (Ea & F1 & F2 & F3 & F4).
      destruct (_get_advanced_args a1) as [adv a2].
      simpl in Ea, F4. simpl. rewrite F4, E4, Ea.
      unfold advanced_of. now rewrite E3. }
  split.
  - intros Hblank. apply Hnil in Hblank. now rewrite Hcmd, Hblank.
  - intros Hsome.
    destruct (snd (_get_urls_from_input (urls_var a))) as [|u urls] eqn:E.
    + destruct Hsome. now apply Hnil.
    + split; [discriminate|exact Hcmd].
Qed.

End Actions.

(** ** The theorems at concrete inputs *)

#[local] Existing Instance ascii_db.

(** C2 at a prefix that ends in a marker line without a link: the title of
    its first line is kept when a link arrives. *)
Lemma C2_prefix_records_kept_witness :
  exists result_P result_L,
    parse_failed_downloads
      [py "Failed to download: Another Song";
       py "ERROR AudioProviderError: something"]
    = Return result_P
    /\ parse_failed_downloads
         ([py "Failed to download: Another Song";
           py "ERROR AudioProviderError: something"]
          ++ [py "https://music.youtube.com/watch?v=abc123XYZ_-"])
       = Return result_L
    /\ In (py "Another Song") result_P
    /\ In (py "Another Song") result_L.
Proof.
  destruct (@C2_prefix_records_kept ascii_db
              [py "Failed to download: Another Song";
               py "ERROR AudioProviderError: something"]
              [py "https://music.youtube.com/watch?v=abc123XYZ_-"])
    as (result_P & result_L & HP & HL & Hkept).
  assert (Hin : In (py "Another Song") result_P).
  { vm_compute in HP. injection HP as <-. now left. }
  exists result_P, result_L. split_and!; [exact HP|exact HL|exact Hin|].
  destruct (Hkept _ Hin) as [Hr|(i & line & _ & _ & _ & _ & _ & Hr)];
    [exact Hr|].
  unfold generic_record in Hr. simpl in Hr. discriminate Hr.
Defined.

(** C4 at two orders of the same two failure lines. *)
Lemma C4_sorted_without_duplicates_witness :
  exists result1 result2,
    parse_failed_downloads
      [py "Failed to download: b"; py "Failed to download: a"]
    = Return result1
    /\ parse_failed_downloads
         [py "Failed to download: a"; py "Failed to download: b"]
       = Return result2
    /\ result1 = result2.
Proof.
  exists [py "a"; py "b"], [py "a"; py "b"].
  assert (H1 : parse_failed_downloads
                 [py "Failed to download: b"; py "Failed to download: a"]
               = Return [py "a"; py "b"]) by (vm_compute; reflexivity).
  assert (H2 : parse_failed_downloads
                 [py "Failed to download: a"; py "Failed to download: b"]
               = Return [py "a"; py "b"]) by (vm_compute; reflexivity).
  split_and!; [exact H1|exact H2|].
  apply (proj2 (proj2 (proj2 (@C4_sorted_without_duplicates ascii_db)))
           _ _ _ _ H1 H2).
  intros r. reflexivity.
Defined.

(** C5 at the line of the specification with a colon in the title. *)
Lemma C5_capture_stops_at_colon_witness :
  (forall fs,
     loop_body [py "Failed to download: Song: Remix Version"] (0, fs)
     = Return (1, {[ py "Song" ]} ∪ fs))
  /\ exists result,
       parse_failed_downloads [py "Failed to download: Song: Remix Version"]
       = Return result
       /\ In (py "Song") result.
Proof.
  apply (proj2 (proj2 (@C5_capture_stops_at_colon ascii_db))
           [py "Failed to download: Song: Remix Version"] 0
           [] (py "Failed to download") (py " Song")
           (colon :: py " Remix Version")).
  - reflexivity.
  - right; left; reflexivity.
  - constructor.
  - intros j M' Hj. simpl in Hj. lia.
  - vm_compute. repeat constructor; discriminate.
  - right. exists (py " Remix Version"). split; [reflexivity|].
    vm_compute. repeat constructor; discriminate.
  - reflexivity.
Defined.

(** C6 at the three lines of the specification. *)
Lemma C6_url_in_window_witness :
  (forall fs,
     loop_body
       [py "ERROR AudioProviderError: something"; py "some noise";
        py "https://music.youtube.com/watch?v=abc123XYZ_-"] (0, fs)
     = Return
         (1, {[ url_record
                  (py "https://music.youtube.com/watch?v=abc123XYZ_-") ]}
             ∪ fs))
  /\ exists result,
       parse_failed_downloads
         [py "ERROR AudioProviderError: something"; py "some noise";
          py "https://music.youtube.com/watch?v=abc123XYZ_-"]
       = Return result
       /\ In (url_record
               (py "https://music.youtube.com/watch?v=abc123XYZ_-")) result.
Proof.
  apply (proj1 (@C6_url_in_window ascii_db)
           [py "ERROR AudioProviderError: something"; py "some noise";
            py "https://music.youtube.com/watch?v=abc123XYZ_-"]
           0 2 (py "ERROR AudioProviderError: something")
           (py "https://music.youtube.com/watch?v=abc123XYZ_-")
           {| group0 := py "https://music.youtube.com/watch?v=abc123XYZ_-";
              group1 := None |}).
  - reflexivity.
  - vm_compute. reflexivity.
  - vm_compute. reflexivity.
  - lia.
  - reflexivity.
  - vm_compute. reflexivity.
  - intros j' l' Hj' Hl'. destruct j' as [|[|j']]; [| |lia];
      simpl in Hl'; injection Hl' as <-; vm_compute; reflexivity.
Defined.

(** C7 with the link on the fourth line after the marker. *)
Lemma C7_no_url_in_window_witness :
  (forall fs,
     loop_body
       [py "ERROR AudioProviderError: something"; py "noise 1";
        py "noise 2"; py "noise 3";
        py "https://music.youtube.com/watch?v=abc123XYZ_-"] (0, fs)
     = Return
         (1, {[ generic_record (py "ERROR AudioProviderError: something") ]}
             ∪ fs))
  /\ exists result,
       parse_failed_downloads
         [py "ERROR AudioProviderError: something"; py "noise 1";
          py "noise 2"; py "noise 3";
          py "https://music.youtube.com/watch?v=abc123XYZ_-"]
       = Return result
       /\ In (generic_record (py "ERROR AudioProviderError: something"))
            result.
Proof.
  apply (proj1 (@C7_no_url_in_window ascii_db)
           [py "ERROR AudioProviderError: something"; py "noise 1";
            py "noise 2"; py "noise 3";
            py "https://music.youtube.com/watch?v=abc123XYZ_-"]
           0 (py "ERROR AudioProviderError: something")).
  - reflexivity.
  - vm_compute. reflexivity.
  - vm_compute. reflexivity.
  - intros j l Hj Hl. destruct j as [|[|[|[|j]]]]; [| | | |lia];
      simpl in Hl; injection Hl as <-; vm_compute; reflexivity.
Defined.

(** C8 at a marker line followed by a failure line with a title. *)
Lemma C8_lookahead_lines_still_classified_witness :
  exists result,
    parse_failed_downloads
      [py "ERROR AudioProviderError: something";
       py "Failed to download: Another Song"]
    = Return result
    /\ In (py "Another Song") result.
Proof.
  destruct (@C8_lookahead_lines_still_classified ascii_db
              [py "ERROR AudioProviderError: something";
               py "Failed to download: Another Song"]
              0 1 (py "ERROR AudioProviderError: something")
              (py "Failed to download: Another Song"))
    as (_ & result & Hp & Hexplicit & _).
  - reflexivity.
  - vm_compute. reflexivity.
  - vm_compute. reflexivity.
  - lia.
  - reflexivity.
  - exists result. split; [exact Hp|].
    apply (Hexplicit
             {| group0 := py "Failed to download: Another Song";
                group1 := Some (py "Another Song") |}
             (py "Another Song")).
    + vm_compute. reflexivity.
    + reflexivity.
    + reflexivity.
Defined.

(** C10 at the line that is the marker phrase and its colon alone. *)
Lemma C10_empty_capture_consumes_line_witness :
  search explicit_failure_pattern (py "Failed to download:")
  = Some {| group0 := py "Failed to download:"; group1 := Some [] |}
  /\ loop_body [py "Failed to download:"] (0, ∅) = Return (1, ∅).
Proof.
  split; [vm_compute; reflexivity|].
  apply (proj1 (@C10_empty_capture_consumes_line ascii_db)
           [py "Failed to download:"] 0 (py "Failed to download:")
           {| group0 := py "Failed to download:"; group1 := Some [] |} []).
  - reflexivity.
  - vm_compute. reflexivity.
  - reflexivity.
  - reflexivity.
Defined.

(** ** The further properties at concrete inputs *)

Lemma records_have_three_shapes_witness :
  (exists line,
     In line [py "Failed to download: Another Song"]
     /\ title_of line (py "Another Song"))
  \/ (exists u line before after,
        In line [py "Failed to download: Another Song"]
        /\ line = before ++ u ++ after
        /\ watch_link u /\ py "Another Song" = url_record u)
  \/ (exists line,
        In line [py "Failed to download: Another Song"]
        /\ contains (py "AudioProviderError:") line = true
        /\ py "Another Song" = generic_record line).
Proof.
  destruct (@records_have_three_shapes ascii_db
              [py "Failed to download: Another Song"])
    as (result & Hp & Hall).
  apply Hall. vm_compute in Hp. injection Hp as <-. now left.
Defined.

Lemma record_shapes_are_exclusive_witness :
  title_of (py "Failed to download: Another Song") (py "Another Song")
  /\ py "Another Song"
     <> url_record (py "https://youtube.com/watch?v=abc").
Proof.
  assert (Ht : title_of (py "Failed to download: Another Song")
                 (py "Another Song")).
  { split_and!.
    - discriminate.
    - vm_compute. repeat (constructor; [split; discriminate|]). constructor.
    - split; reflexivity.
    - exists [], (py "Failed to download"), (py " "), []. split_and!.
      + reflexivity.
      + right; left; reflexivity.
      + repeat constructor. }
  split; [exact Ht|].
  exact (proj1 record_shapes_are_exclusive _ _ _ Ht).
Defined.

Lemma found_link_is_whole_witness :
  exists before after,
    py "see https://music.youtube.com/watch?v=abc123XYZ_- now"
    = before ++ py "https://music.youtube.com/watch?v=abc123XYZ_-" ++ after
    /\ watch_link (py "https://music.youtube.com/watch?v=abc123XYZ_-")
    /\ match after with
       | [] => True
       | c :: _ => word_or_hyphen c = false
       end.
Proof.
  apply (@found_link_is_whole ascii_db
           (py "see https://music.youtube.com/watch?v=abc123XYZ_- now")
           {| group0 := py "https://music.youtube.com/watch?v=abc123XYZ_-";
              group1 := None |}).
  vm_compute. reflexivity.
Defined.

Lemma loop_body_reads_four_lines_witness :
  loop_body
    [py "ERROR AudioProviderError: something"; py "a"; py "b"; py "c";
     py "https://youtube.com/watch?v=abc"] (0, ∅)
  = loop_body
      [py "ERROR AudioProviderError: something"; py "a"; py "b"; py "c";
       py "Failed to download: Another Song"] (0, ∅).
Proof.
  apply (@loop_body_reads_four_lines ascii_db).
  intros k Hk. destruct k as [|[|[|[|k]]]]; try reflexivity. lia.
Defined.

Lemma no_colon_no_record_witness :
  parse_failed_downloads [py "Downloading"; py "Done"] = Return [].
Proof.
  apply (proj2 (@no_colon_no_record ascii_db)).
  intros line [<-|[<-|[]]] Hin; vm_compute in Hin;
    repeat (destruct Hin as [Hin|Hin]; [discriminate Hin|]); exact Hin.
Defined.

Lemma records_of_concatenation_witness :
  exists result_A result_B result,
    parse_failed_downloads
      [py "ERROR AudioProviderError: something";
       py "https://music.youtube.com/watch?v=abc123XYZ_-"]
    = Return result_A
    /\ parse_failed_downloads [py "Failed to download: Another Song"]
       = Return result_B
    /\ parse_failed_downloads
         ([py "ERROR AudioProviderError: something";
           py "https://music.youtube.com/watch?v=abc123XYZ_-"]
          ++ [py "Failed to download: Another Song"])
       = Return result
    /\ forall r, In r result <-> In r result_A \/ In r result_B.
Proof.
  apply (@records_of_concatenation ascii_db).
  intros i line Hl Hex Hmark.
  destruct i as [|[|i]]; simpl in Hl.
  - right.
    exists 1, (py "https://music.youtube.com/watch?v=abc123XYZ_-"),
      {| group0 := py "https://music.youtube.com/watch?v=abc123XYZ_-";
         group1 := None |}.
    split_and!; [lia|lia|reflexivity|vm_compute; reflexivity].
  - injection Hl as <-. vm_compute in Hmark. discriminate Hmark.
  - discriminate Hl.
Defined.

Lemma front_ends_take_the_same_urls_witness :
  snd (_get_urls_from_input (py "a b")) = urls_of_input (py "a b").
Proof.
  apply (proj1 front_ends_take_the_same_urls).
  repeat (apply List.Forall_cons;
          [vm_compute; intros Hs; first [reflexivity|discriminate Hs]|]).
  apply List.Forall_nil.
Defined.

Lemma get_user_choice_first_valid_line_witness :
  exists out',
    get_user_choice (H := one_digit_int) 3 (py "Select audio format")
      [py "mp3"; py "flac"]
      {| stdin := [py "x"; py "7"; py " 2 "; py "later"]; stdout := [] |}
    = Done (py "flac") {| stdin := [py "later"]; stdout := out' |}.
Proof.
  apply (@get_user_choice_first_valid_line one_digit_int
           (py "Select audio format") [py "mp3"; py "flac"]
           [py "x"; py "7"] (py " 2 ") [py "later"] 2%Z (py "flac")).
  - apply List.Forall_cons; [vm_compute; exact I|].
    apply List.Forall_cons; [vm_compute; right; reflexivity|].
    apply List.Forall_nil.
  - reflexivity.
  - lia.
  - reflexivity.
  - simpl. lia.
Defined.

Lemma get_numeric_input_empty_answer_witness :
  exists out',
    get_numeric_input (H := one_digit_int) 1
      (py "Number of concurrent download threads") (Some 4%Z) 1%Z
      {| stdin := [py "  "]; stdout := [] |}
    = Done (Some 4%Z) {| stdin := []; stdout := out' |}.
Proof.
  destruct (@get_numeric_input_empty_answer one_digit_int 0
              (py "Number of concurrent download threads") 4%Z 1%Z
              (py "  ") [] [] eq_refl eq_refl) as (out' & Hdefault & _).
  exists out'. apply Hdefault. lia.
Defined.

Lemma save_metadata_again_witness :
  commands
    (_save_metadata (H := whitespace_lexer)
       (_save_metadata (H := whitespace_lexer)
          {| urls_var := py "https://open.spotify.com/track/x";
             save_file_var := py " list ";
             advanced_args_var := []; console := []; status_bar := [];
             commands := [] |}))
  = [] ++ [([py "spotdl"; py "save";
             py "https://open.spotify.com/track/x";
             py "--save-file"; py "list.spotdl"], py "Save Metadata");
           ([py "spotdl"; py "save";
             py "https://open.spotify.com/track/x";
             py "--save-file"; py "list.spotdl"], py "Save Metadata")].
Proof.
  apply (@save_metadata_again whitespace_lexer
           {| urls_var := py "https://open.spotify.com/track/x";
              save_file_var := py " list ";
              advanced_args_var := []; console := []; status_bar := [];
              commands := [] |}).
  vm_compute. reflexivity.
Defined.

Lemma get_direct_urls_command_witness :
  commands
    (_get_direct_urls (H := unquoted_lexer)
       {| urls_var := py "   "; save_file_var := [];
          advanced_args_var := []; console := []; status_bar := [];
          commands := [] |})
  = []
  /\ commands
       (_get_direct_urls (H := unquoted_lexer)
          {| urls_var := py "https://open.spotify.com/track/x";
             save_file_var := [];
             advanced_args_var := [45; 45; 120; 32; 34; 121]%N;
             console := []; status_bar := []; commands := [] |})
     = [] ++ [([py "spotdl"; py "url";
                py "https://open.spotify.com/track/x"],
               py "Get Direct URLs")].
Proof.
  split.
  - apply (proj1 (@get_direct_urls_command unquoted_lexer
                    {| urls_var := py "   "; save_file_var := [];
                       advanced_args_var := []; console := [];
                       status_bar := []; commands := [] |})).
    vm_compute. repeat constructor.
  - apply (proj2 (@get_direct_urls_command unquoted_lexer
                    {| urls_var := py "https://open.spotify.com/track/x";
                       save_file_var := [];
                       advanced_args_var := [45; 45; 120; 32; 34; 121]%N;
                       console := []; status_bar := [];
                       commands := [] |})).
    intros Hblank. vm_compute in Hblank.
    apply Forall_cons in Hblank as [Hc _]. discriminate Hc.
Defined.

Lemma explicit_match_iff_marker_and_colon_witness :
  search explicit_failure_pattern (py "ERROR Failed to download: x") <> None
  <-> exists M, In M markers
                /\ contains (M ++ [colon]) (py "ERROR Failed to download: x")
                   = true.
Proof.
  apply explicit_match_iff_marker_and_colon.
  vm_compute. repeat (constructor; [discriminate|]). constructor.
Defined.
